(** * generate_icons.py: a shallow embedding and its checked properties

    The script opens one source image and, for every entry of the table
    [UNIQUE_SIZES] that carries a file name, resizes the image to an enlarged
    square, crops it back to the target size, pastes it on a transparent
    canvas and saves the canvas as a PNG file.

    Python values are embedded as follows.
    - [int] is [Z]; [//] is [Z.div] (both round towards minus infinity).
    - [float] is IEEE 754 binary64, through [SpecFloat] of the standard
      library: the literal [1.2] is the double nearest to 1.2 and the
      product [size * scale_factor] is rounded as the hardware rounds it.
    - Exceptions and side effects (the file system, the console) are threaded
      through a state-and-exception monad [M].
    - Pillow images are records with a mode, a width, a height and a pixel
      function; the resampling filter itself is a parameter ([Platform]). *)

From Stdlib Require Import ZArith Lia Bool List Ascii.
From Stdlib Require Import Floats.SpecFloat.
From Stdlib Require Import DecimalString.
From stdpp Require Import base gmap strings list.

Local Open Scope string_scope.
Local Open Scope Z_scope.

(** ** Exceptions *)

Module Py.

(** The exception classes the script can meet.  [SystemExit] is not an
    [Exception]: [except Exception] lets it through. *)
Inductive ErrKind :=
  | FileNotFoundError
  | IsADirectoryError
  | PermissionError
  | OSError
  | UnidentifiedImageError
  | ValueError
  | OverflowError.

Inductive Exn :=
  | SystemExit (code : Z)
  | Error (kind : ErrKind) (msg : string).

(** [isinstance(e, Exception)] *)
Definition is_Exception (e : Exn) : bool :=
  match e with
  | SystemExit _ => false
  | Error _ _ => true
  end.

(** [str(e)], as the f-strings of the script print it. *)
Definition str_exn (e : Exn) : string :=
  match e with
  | SystemExit c => NilZero.string_of_int (Z.to_int c)
  | Error _ msg => msg
  end.

(** The result of evaluating an expression: a value or a raised exception. *)
Inductive Result (A : Type) :=
  | Ok (a : A)
  | Raise (e : Exn).
Arguments Ok {A} a.
Arguments Raise {A} e.

Definition rbind {A B} (r : Result A) (k : A -> Result B) : Result B :=
  match r with
  | Ok a => k a
  | Raise e => Raise e
  end.

(** [str(n)] for an [int]. *)
Definition str_int (n : Z) : string := NilZero.string_of_int (Z.to_int n).

(** *** Floats (binary64) *)

Definition prec : Z := 53.
Definition emax : Z := 1024.

Definition float := spec_float.

(** Conversion of an [int] operand of a mixed [int]/[float] operation: round
    to nearest even, [OverflowError] when the integer is out of range. *)
Definition float_of_int (n : Z) : Result float :=
  match binary_normalize prec emax n 0 false with
  | S754_infinity _ => Raise (Error OverflowError "int too large to convert to float")
  | f => Ok f
  end.

(** [n * x] with [n : int], [x : float]. *)
Definition mul_int_float (n : Z) (x : float) : Result float :=
  rbind (float_of_int n) (fun fn => Ok (SFmul prec emax fn x)).

(** [x * n] with [x : float], [n : int]. *)
Definition mul_float_int (x : float) (n : Z) : Result float :=
  rbind (float_of_int n) (fun fn => Ok (SFmul prec emax x fn)).

(** [x - n] with [x : float], [n : int]. *)
Definition sub_float_int (x : float) (n : Z) : Result float :=
  rbind (float_of_int n) (fun fn => Ok (SFsub prec emax x fn)).

(** [int(x)] for a float: truncation towards zero; NaN and the infinities
    raise. *)
Definition int_of_float (x : float) : Result Z :=
  match x with
  | S754_nan => Raise (Error ValueError "cannot convert float NaN to integer")
  | S754_infinity _ => Raise (Error OverflowError "cannot convert float infinity to integer")
  | S754_zero _ => Ok 0
  | S754_finite s m e =>
      let mag := if 0 <=? e then Z.shiftl (Zpos m) e else Z.shiftr (Zpos m) (- e) in
      Ok (if s then - mag else mag)
  end.

(** The float literals of the script and of the claims. *)
Definition float_1_2 : float := S754_finite false 5404319552844595 (-52).
Definition float_1_0 : float := S754_finite false 4503599627370496 (-52).
Definition float_1_01 : float := S754_finite false 4548635623644201 (-52).
Definition float_0_5 : float := S754_finite false 4503599627370496 (-53).
Definition float_0_0 : float := S754_zero false.

(** [x > y] on floats. *)
Definition float_gt (x y : float) : bool := SFltb y x.

End Py.
Import Py.

Notation "x <- r ;;; k" := (rbind r (fun x => k))
  (at level 100, r at next level, right associativity, only parsing).

(** ** Pillow images *)

Module PIL.

(** The band layout of an image.  Only ['RGBA'] is named by the script; any
    other mode is carried by its name. *)
Inductive Mode :=
  | RGBA
  | OtherMode (name : string).

Definition mode_eqb (m1 m2 : Mode) : bool :=
  match m1, m2 with
  | RGBA, RGBA => true
  | OtherMode a, OtherMode b => String.eqb a b
  | _, _ => false
  end.

(** An RGBA pixel: four 8-bit bands held as integers in [0, 255]. *)
Record Pixel := mkPixel { red : Z; green : Z; blue : Z; alpha : Z }.

Definition band_ok (c : Z) : Prop := 0 <= c <= 255.

Definition pixel_ok (p : Pixel) : Prop :=
  band_ok (red p) /\ band_ok (green p) /\ band_ok (blue p) /\ band_ok (alpha p).

(** The colour [(0, 0, 0, 0)] passed to [Image.new]. *)
Definition transparent : Pixel := mkPixel 0 0 0 0.

Definition Raster := Z -> Z -> Pixel.

(** An image object.  [Image.open] reads the header only, so an image that
    comes from a file knows its mode and size while its pixels are decoded
    later, by the first operation that needs them: [pixels = None] stands for
    a body that fails to decode.  Pixels are kept as their RGBA rendering
    whatever the mode, and are meaningful for [0 <= x < width],
    [0 <= y < height]. *)
Record Image := mkImage {
  mode : Mode;
  width : Z;
  height : Z;
  pixels : option Raster
}.

(** [im.size] *)
Definition im_size (im : Image) : Z * Z := (width im, height im).

(** The resampling filter and the text of a float are left to the platform:
    [lanczos src (sw, sh) (w, h)] is the [w x h] raster that
    [Image.Resampling.LANCZOS] computes from a [sw x sh] raster, and
    [repr_float x] is the text an f-string gives for [x]. *)
Class Platform := {
  lanczos : Raster -> Z * Z -> Z * Z -> Raster;
  repr_float : float -> string
}.

(** [im.load()]: decodes the pixels, [OSError] on a damaged body. *)
Definition load (im : Image) : Result Raster :=
  match pixels im with
  | Some px => Ok px
  | None => Raise (Error OSError "image file is truncated")
  end.

(** [im.convert('RGBA')]: loads the image and returns a copy in the given
    mode. *)
Definition convert (im : Image) (m : Mode) : Result Image :=
  px <- load im ;;;
  Ok (mkImage m (width im) (height im) (Some px)).

(** [im.resize((w, h), Image.Resampling.LANCZOS)]: loads the image; a target
    side below 1 is refused by the resampler. *)
Definition resize `{Platform} (im : Image) (sz : Z * Z) : Result Image :=
  px <- load im ;;;
  let '(w, h) := sz in
  if (w <? 1) || (h <? 1)
  then Raise (Error ValueError "height and width must be > 0")
  else Ok (mkImage (mode im) w h (Some (lanczos px (im_size im) (w, h)))).

(** [Image.new(mode, (w, h), color)] *)
Definition new (m : Mode) (sz : Z * Z) (color : Pixel) : Result Image :=
  let '(w, h) := sz in
  if (w <? 0) || (h <? 0)
  then Raise (Error ValueError "Width and height must be >= 0")
  else Ok (mkImage m w h (Some (fun _ _ => color))).

(** [im.crop((left, upper, right, lower))]: the region of the image, as a
    new image of [right - left] by [lower - upper] pixels; pixels of the box
    that lie outside of the image are zero. *)
Definition crop (im : Image) (box : Z * Z * Z * Z) : Result Image :=
  let '(lft, upper, rgt, lower) := box in
  if rgt <? lft
  then Raise (Error ValueError "Coordinate 'right' is less than 'left'")
  else if lower <? upper
  then Raise (Error ValueError "Coordinate 'lower' is less than 'upper'")
  else
    px <- load im ;;;
    Ok (mkImage (mode im) (rgt - lft) (lower - upper)
          (Some (fun x y =>
                   let sx := x + lft in
                   let sy := y + upper in
                   if (0 <=? sx) && (sx <? width im) && (0 <=? sy) && (sy <? height im)
                   then px sx sy
                   else transparent))).

(** Division by 255 with rounding, as the paste code does it on bytes. *)
Definition div255 (a : Z) : Z :=
  let tmp := a + 128 in
  Z.shiftr (Z.shiftr tmp 8 + tmp) 8.

(** One band of [in2] laid over [in1] through [mask]. *)
Definition blend8 (mask in1 in2 : Z) : Z :=
  div255 (in1 * (255 - mask) + in2 * mask).

Definition blend_pixel (mask : Z) (p1 p2 : Pixel) : Pixel :=
  mkPixel (blend8 mask (red p1) (red p2))
          (blend8 mask (green p1) (green p2))
          (blend8 mask (blue p1) (blue p2))
          (blend8 mask (alpha p1) (alpha p2)).

(** [self.paste(im, (x, y), mask)]: [im] is laid over [self] with its upper
    left corner at [(x, y)]; every band, alpha included, is mixed through the
    alpha band of [mask]: where the mask is 255 the pixel of [im] is copied,
    where it is 0 the pixel of [self] is kept.  The part of the box outside
    of [self] is dropped; [self] keeps its size.  The script passes the same
    RGBA image as [im] and as [mask]. *)
Definition paste (self im : Image) (pos : Z * Z) (mask : Image) : Result Image :=
  let '(x0, y0) := pos in
  src <- load im ;;;
  msk <- load mask ;;;
  dst <- load self ;;;
  if negb ((width mask =? width im) && (height mask =? height im))
  then Raise (Error ValueError "images do not match")
  else
    Ok (mkImage (mode self) (width self) (height self)
          (Some (fun x y =>
                   if (x0 <=? x) && (x <? x0 + width im) && (y0 <=? y) && (y <? y0 + height im)
                   then blend_pixel (alpha (msk (x - x0) (y - y0))) (dst x y) (src (x - x0) (y - y0))
                   else dst x y))).

(** [im.getpixel((x, y))] of a decoded image. *)
Definition getpixel (im : Image) (x y : Z) : Pixel :=
  match pixels im with
  | Some px => px x y
  | None => transparent
  end.

End PIL.
Import PIL.

(** ** The world: file system and console *)

Inductive Format :=
  | PNG
  | OtherFormat (name : string).

(** What a path of the file system leads to: a directory, a file that no
    decoder identifies, or an image file.  The image of an image file is
    what [Image.open] hands out for it (header decoded, body maybe damaged). *)
Inductive Node :=
  | Directory
  | NotAnImage
  | ImageFile (fmt : Format) (im : Image).

(** The state the script runs in.  [write_error p] is the verdict of the
    operating system on creating or truncating a file at [p] (missing parent
    directory, permissions, ...); [stdout] holds the text of every [print]
    call, oldest first, and [stderr] the traceback of an uncaught exception. *)
Record World := mkWorld {
  fs : gmap string Node;
  write_error : string -> option (ErrKind * string);
  stdout : list string;
  stderr : list string
}.

(** Statements: a state transformer that returns a value or raises. *)
Definition M (A : Type) : Type := World -> Result A * World.

Definition ret {A} (a : A) : M A := fun w => (Ok a, w).

Definition raise {A} (e : Exn) : M A := fun w => (Raise e, w).

Definition bind {A B} (m : M A) (k : A -> M B) : M B :=
  fun w =>
    match m w with
    | (Ok a, w') => k a w'
    | (Raise e, w') => (Raise e, w')
    end.

(** An expression without side effects, evaluated inside a statement. *)
Definition lift {A} (r : Result A) : M A := fun w => (r, w).

Notation "x <- m ;; k" := (bind m (fun x => k))
  (at level 100, m at next level, right associativity).
Notation "m ;; k" := (bind m (fun _ => k))
  (at level 100, right associativity).

(** [try: body / except Exception as e: ...]: the outcome of the body, with
    an exception that is an [Exception] turned into a value for the handler;
    anything else keeps propagating.  Effects of the body up to the raise
    stay. *)
Inductive Attempt (A : Type) :=
  | Done (a : A)
  | Caught (e : Exn).
Arguments Done {A} a.
Arguments Caught {A} e.

Definition try_except {A} (body : M A) : M (Attempt A) :=
  fun w =>
    match body w with
    | (Ok a, w') => (Ok (Done a), w')
    | (Raise e, w') =>
        if is_Exception e then (Ok (Caught e), w') else (Raise e, w')
    end.

(** The world after one more line on the console. *)
Definition printed (w : World) (s : string) : World :=
  mkWorld (fs w) (write_error w) (stdout w ++ [s]) (stderr w).

(** [print(s)] *)
Definition print (s : string) : M unit :=
  fun w => (Ok tt, printed w s).

(** [sys.exit(code)] *)
Definition sys_exit {A} (code : Z) : M A := raise (SystemExit code).

Module os_path.

(** [os.path.exists(p)] *)
Definition exists_ (p : string) : M bool :=
  fun w => (Ok (bool_decide (is_Some (fs w !! p))), w).

Fixpoint endswith_slash (a : string) : bool :=
  match a with
  | EmptyString => false
  | String c EmptyString => Ascii.eqb c "/"%char
  | String _ rest => endswith_slash rest
  end.

Definition startswith_slash (b : string) : bool :=
  match b with
  | String c _ => Ascii.eqb c "/"%char
  | EmptyString => false
  end.

(** [os.path.join(a, b)] (POSIX): an absolute [b] replaces [a]; otherwise
    [b] is appended, after a separator unless [a] is empty or ends in one. *)
Definition join (a b : string) : string :=
  if startswith_slash b then b
  else if String.eqb a EmptyString || endswith_slash a then a +:+ b
  else a +:+ "/" +:+ b.

End os_path.

(** [Image.open(path)]: identifies the file; the pixels are not decoded. *)
Definition Image_open (path : string) : M Image :=
  fun w =>
    match fs w !! path with
    | None =>
        (Raise (Error FileNotFoundError ("[Errno 2] No such file or directory: '" +:+ path +:+ "'")), w)
    | Some Directory =>
        (Raise (Error IsADirectoryError ("[Errno 21] Is a directory: '" +:+ path +:+ "'")), w)
    | Some NotAnImage =>
        (Raise (Error UnidentifiedImageError ("cannot identify image file '" +:+ path +:+ "'")), w)
    | Some (ImageFile _ im) => (Ok im, w)
    end.

(** [im.save(path, 'PNG', optimize=True)]: encodes the image and writes the
    file, replacing what the path held. *)
Definition Image_save (im : Image) (path : string) (fmt : Format) : M unit :=
  fun w =>
    match load im with
    | Raise e => (Raise e, w)
    | Ok _ =>
        match fs w !! path with
        | Some Directory =>
            (Raise (Error IsADirectoryError ("[Errno 21] Is a directory: '" +:+ path +:+ "'")), w)
        | _ =>
            match write_error w path with
            | Some (k, msg) => (Raise (Error k msg), w)
            | None =>
                (Ok tt,
                 mkWorld (<[path := ImageFile fmt im]> (fs w))
                         (write_error w) (stdout w) (stderr w))
            end
        end
    end.

(** ** The script *)

(** The list of the icons the asset catalogue asks for, by pixel size; the
    script keeps it for reference and does not read it. *)
Definition ICON_SIZES : list (string * option string) :=
  [ ("40x40", Some "writing shed spotlight 2.png");
    ("60x60", Some "writing shed spotlight 3.png");
    ("29x29", Some "writing shed iPhone Settings.png");
    ("58x58", Some "writing shed settings 2.png");
    ("87x87", Some "writing shed settings 3.png");
    ("80x80", Some "writing shed spotlight 2.png");
    ("120x120", Some "writing shed spotlight 3.png");
    ("120x120", Some "writing shed iphone 2.png");
    ("180x180", Some "writing shed iphone 3.png");
    ("20x20", None);
    ("40x40", None);
    ("29x29", Some "writing shed iPhone Settings-3.png");
    ("58x58", Some "writing shed settings 2-1.png");
    ("40x40", Some "writing shed spotlight.png");
    ("80x80", Some "writing shed spolight 2.png");
    ("76x76", Some "writing shed iPad.png");
    ("152x152", Some "writing shed ipad 2.png");
    ("167x167", Some "writing shed iPad Pro 2.png");
    ("1024x1024", Some "writing shed 1024.png") ].

(** The table the loop iterates, in the order [dict.items()] yields it
    (insertion order); [None] marks a size without an output file. *)
Definition UNIQUE_SIZES : list (Z * option string) :=
  [ (20, None);
    (29, Some "writing shed iPhone Settings.png");
    (40, Some "writing shed spotlight.png");
    (58, Some "writing shed settings 2.png");
    (60, Some "writing shed spotlight 3.png");
    (76, Some "writing shed iPad.png");
    (80, Some "writing shed spolight 2.png");
    (87, Some "writing shed settings 3.png");
    (120, Some "writing shed iphone 2.png");
    (152, Some "writing shed ipad 2.png");
    (167, Some "writing shed iPad Pro 2.png");
    (180, Some "writing shed iphone 3.png");
    (1024, Some "writing shed 1024.png") ].

Section Script.
Context `{Platform}.

(** [content_size = int(size * scale_factor)] *)
Definition content_size (size : Z) (scale_factor : float) : Result Z :=
  x <- mul_int_float size scale_factor ;;;
  int_of_float x.

(** [crop_margin = (content_size - size) // 2] *)
Definition crop_margin (content_size size : Z) : Z := (content_size - size) / 2.

(** The body of the loop up to the paste: from the source image to the
    canvas that gets saved. *)
Definition render_icon (img : Image) (size : Z) (scale_factor : float) : Result Image :=
  content_size <- content_size size scale_factor ;;;
  scaled_content <- resize img (content_size, content_size) ;;;
  final_image <- new RGBA (size, size) transparent ;;;
  let paste_x := (size - content_size) / 2 in
  let paste_y := (size - content_size) / 2 in
  if content_size >? size then
    let crop_margin := crop_margin content_size size in
    scaled_content <- crop scaled_content
                        (crop_margin, crop_margin, crop_margin + size, crop_margin + size) ;;;
    let paste_x := 0 in
    let paste_y := 0 in
    paste final_image scaled_content (paste_x, paste_y) scaled_content
  else
    paste final_image scaled_content (paste_x, paste_y) scaled_content.

(** The body of the [try] inside the loop. *)
Definition generate_size (img : Image) (output_dir : string) (scale_factor : float)
    (size : Z) (filename : string) : M unit :=
  final_image <- lift (render_icon img size scale_factor) ;;
  let output_path := os_path.join output_dir filename in
  Image_save final_image output_path PNG ;;
  print ("✓ Generated " +:+ str_int size +:+ "x" +:+ str_int size +:+ " -> " +:+ filename).

(** [for size, filename in items: ...] followed by [return True]; the
    handler of the [try] returns [False] out of the function. *)
Fixpoint for_sizes (items : list (Z * option string)) (img : Image)
    (output_dir : string) (scale_factor : float) : M bool :=
  match items with
  | [] => ret true
  | (size, None) :: rest => for_sizes rest img output_dir scale_factor
  | (size, Some filename) :: rest =>
      r <- try_except (generate_size img output_dir scale_factor size filename) ;;
      match r with
      | Caught e =>
          print ("✗ Error generating " +:+ str_int size +:+ "x" +:+ str_int size
                   +:+ ": " +:+ str_exn e) ;;
          ret false
      | Done _ => for_sizes rest img output_dir scale_factor
      end
  end.

(** [int((scale_factor-1)*100)] *)
Definition percent_bigger (scale_factor : float) : Result Z :=
  d <- sub_float_int scale_factor 1 ;;;
  p <- mul_float_int d 100 ;;;
  int_of_float p.

(** The body of the first [try]: open the source and print the two
    header lines. *)
Definition open_source (source_image_path : string) (scale_factor : float) : M Image :=
  img <- Image_open source_image_path ;;
  print ("Source image: " +:+ str_int (fst (im_size img)) +:+ "x"
           +:+ str_int (snd (im_size img)) +:+ " pixels") ;;
  percent <- lift (percent_bigger scale_factor) ;;
  print ("Scale factor: " +:+ repr_float scale_factor +:+ "x (content will be "
           +:+ str_int percent +:+ "% bigger)") ;;
  ret img.

Definition generate_icons (source_image_path output_dir : string)
    (scale_factor : float) : M bool :=
  r <- try_except (open_source source_image_path scale_factor) ;;
  match r with
  | Caught e =>
      print ("Error opening source image: " +:+ str_exn e) ;;
      ret false
  | Done img =>
      img <- (if negb (mode_eqb (mode img) RGBA)
              then lift (convert img RGBA)
              else ret img) ;;
      for_sizes UNIQUE_SIZES img output_dir scale_factor
  end.

Definition source : string := "app_icon_source.png".
Definition output : string :=
  "WrtingShedPro/Writing Shed Pro/Assets.xcassets/AppIcon.appiconset".

Definition newline : string := String "010"%char EmptyString.

(** The [__main__] block; [generate_icons(source, output)] takes the default
    [scale_factor=1.2]. *)
Definition main : M unit :=
  found <- os_path.exists_ source ;;
  (if negb found
   then print ("Error: Source image '" +:+ source +:+ "' not found") ;; sys_exit 1
   else ret tt) ;;
  found <- os_path.exists_ output ;;
  (if negb found
   then print ("Error: Output directory '" +:+ output +:+ "' not found") ;; sys_exit 1
   else ret tt) ;;
  print ("Generating app icons from " +:+ source +:+ "...") ;;
  ok <- generate_icons source output float_1_2 ;;
  if ok
  then print (newline +:+ "✓ All icons generated successfully!")
  else print (newline +:+ "✗ Failed to generate some icons") ;; sys_exit 1.

(** The interpreter running the script: the exit status of the process.  A
    [SystemExit] gives its code, any other uncaught exception a traceback on
    the error stream and status 1, normal termination status 0. *)
Definition run (body : M unit) (w : World) : Z * World :=
  match body w with
  | (Ok _, w') => (0, w')
  | (Raise (SystemExit code), w') => (code, w')
  | (Raise (Error k msg), w') =>
      (1, mkWorld (fs w') (write_error w') (stdout w')
            (stderr w' ++ ["Traceback (most recent call last):"; msg]))
  end.

End Script.

(** ** Derived notions used in the statements *)

(** Entries of a table that carry a file name, the names, and the paths the
    loop writes to. *)
Definition filenames (items : list (Z * option string)) : list string :=
  omap snd items.

Definition output_paths (output_dir : string) (items : list (Z * option string)) : list string :=
  map (os_path.join output_dir) (filenames items).

(** The image the loop works on: the opened image, converted unless its mode
    is RGBA already. *)
Definition rgba_of (img : Image) : Result Image :=
  if negb (mode_eqb (mode img) RGBA) then convert img RGBA else Ok img.

(** The two ways through the loop body, for a given content size: the
    enlarged content cropped from its centre and pasted at the origin, or the
    content pasted whole at the centring offset. *)
Definition cropped `{Platform} (img : Image) (size cs : Z) : Result Image :=
  scaled <- resize img (cs, cs) ;;;
  canvas <- new RGBA (size, size) transparent ;;;
  let m := crop_margin cs size in
  c <- crop scaled (m, m, m + size, m + size) ;;;
  paste canvas c (0, 0) c.

Definition centred `{Platform} (img : Image) (size cs : Z) : Result Image :=
  scaled <- resize img (cs, cs) ;;;
  canvas <- new RGBA (size, size) transparent ;;;
  paste canvas scaled ((size - cs) / 2, (size - cs) / 2) scaled.

(** The entries of a table that carry a file name. *)
Definition named (items : list (Z * option string)) : list (Z * string) :=
  omap (fun e => match snd e with Some fn => Some (fst e, fn) | None => None end) items.

(** The lines the loop prints for an entry: on success and on failure. *)
Definition progress_line (size : Z) (filename : string) : string :=
  "✓ Generated " +:+ str_int size +:+ "x" +:+ str_int size +:+ " -> " +:+ filename.


(** The two header lines of [generate_icons]. *)
Definition source_line (img : Image) : string :=
  "Source image: " +:+ str_int (fst (im_size img)) +:+ "x"
    +:+ str_int (snd (im_size img)) +:+ " pixels".

Definition scale_line `{Platform} (scale_factor : float) (percent : Z) : string :=
  "Scale factor: " +:+ repr_float scale_factor +:+ "x (content will be "
    +:+ str_int percent +:+ "% bigger)".

(** A path at which [save] can create or replace a file. *)
Definition writable (w : World) (p : string) : Prop :=
  fs w !! p <> Some Directory /\ write_error w p = None.

(** The key of [ICON_SIZES] for a pixel size. *)
Definition size_key (size : Z) : string := str_int size +:+ "x" +:+ str_int size.

(** The pixel of the PNG file saved at [path], if there is one. *)
Definition saved_pixel (w : World) (path : string) (x y : Z) : option Pixel :=
  match fs w !! path with
  | Some (ImageFile PNG im) => Some (getpixel im x y)
  | _ => None
  end.

(** ** Sample platform and worlds *)

Module Sample.

(** A stand-in resampler (nearest neighbour) and a float printer that knows
    the literals used below. *)
Definition repr_literal (x : float) : string :=
  if SFeqb x float_1_2 then "1.2"
  else if SFeqb x float_1_0 then "1.0"
  else if SFeqb x float_1_01 then "1.01"
  else if SFeqb x float_0_5 then "0.5"
  else if SFeqb x float_0_0 then "0.0"
  else "nan".

#[export] Instance nearest : Platform := {|
  lanczos := fun src '(sw, sh) '(w, h) => fun x y => src (x * sw / w) (y * sh / h);
  repr_float := repr_literal
|}.

(** An opaque RGB source of 2 x 2 pixels. *)
Definition opaque_rgb : Image :=
  mkImage (OtherMode "RGB") 2 2 (Some (fun _ _ => mkPixel 200 100 50 255)).

(** A half transparent RGBA source of 2 x 2 pixels. *)
Definition glass_rgba : Image :=
  mkImage RGBA 2 2 (Some (fun _ _ => mkPixel 200 100 50 128)).

(** An RGB file whose header is intact and whose body is cut short. *)
Definition truncated_rgb : Image :=
  mkImage (OtherMode "RGB") 512 512 None.

Definition never (p : string) : option (ErrKind * string) := None.

(** The source file and the output directory are in place. *)
Definition world_with (img : Image) : World :=
  mkWorld (<[source := ImageFile PNG img]> (<[output := Directory]> ∅)) never [] [].

(** The same, with the file of the 60 pixel icon write protected. *)
Definition protected_60 (p : string) : option (ErrKind * string) :=
  if String.eqb p (os_path.join output "writing shed spotlight 3.png")
  then Some (PermissionError, "[Errno 13] Permission denied")
  else None.

Definition world_protected : World :=
  mkWorld (<[source := ImageFile PNG opaque_rgb]> (<[output := Directory]> ∅)) protected_60 [] [].

(** Nothing is in place. *)
Definition world_empty : World := mkWorld ∅ never [] [].

(** The source is in place, the output directory is not. *)
Definition world_no_output : World :=
  mkWorld (<[source := ImageFile PNG opaque_rgb]> ∅) never [] [].

(** The source and the output directory are in place, and the path of the
    largest icon holds a stale file that is not an image. *)
Definition world_stale : World :=
  mkWorld (<[os_path.join output "writing shed 1024.png" := NotAnImage]>
             (<[source := ImageFile PNG opaque_rgb]> (<[output := Directory]> ∅)))
          never [] [].

(** The source path leads to a file that is not an image. *)
Definition world_junk : World :=
  mkWorld (<[source := NotAnImage]> (<[output := Directory]> ∅)) never [] [].

End Sample.

(** ** Facts about the library operations *)

Section LibraryFacts.
Context `{Platform}.


Lemma new_shape (m : Mode) (w h : Z) (c : Pixel) (im : Image) :
  new m (w, h) c = Ok im ->
  0 <= w /\ 0 <= h /\ im = mkImage m w h (Some (fun _ _ => c)).
Proof.
  unfold new. destruct ((w <? 0) || (h <? 0)) eqn:Hb; [discriminate|].
  apply orb_false_elim in Hb as [Hw Hh].
  apply Z.ltb_ge in Hw, Hh.
  intros [= <-]. auto.
Qed.

Lemma new_ok (m : Mode) (w h : Z) (c : Pixel) :
  0 <= w -> 0 <= h -> new m (w, h) c = Ok (mkImage m w h (Some (fun _ _ => c))).
Proof.
  intros Hw Hh. unfold new.
  destruct (Z.ltb_spec w 0); [lia|]. destruct (Z.ltb_spec h 0); [lia|]. reflexivity.
Qed.

Lemma crop_shape (im : Image) (x0 y0 x1 y1 : Z) (c : Image) :
  crop im (x0, y0, x1, y1) = Ok c ->
  mode c = mode im /\ width c = x1 - x0 /\ height c = y1 - y0 /\
  exists px, pixels c = Some px.
Proof.
  unfold crop, load, rbind. intros Hc.
  destruct (x1 <? x0); [discriminate|]. destruct (y1 <? y0); [discriminate|].
  destruct (pixels im); [|discriminate].
  injection Hc as <-. simpl. eauto.
Qed.

Lemma paste_shape (self im mask : Image) (pos : Z * Z) (r : Image) :
  paste self im pos mask = Ok r ->
  mode r = mode self /\ width r = width self /\ height r = height self /\
  exists px, pixels r = Some px.
Proof.
  unfold paste, load, rbind. destruct pos as [x0 y0]. intros Hp.
  destruct (pixels im); [|discriminate].
  destruct (pixels mask); [|discriminate].
  destruct (pixels self); [|discriminate].
  destruct (negb _); [discriminate|].
  injection Hp as <-. simpl. eauto.
Qed.

(** Pasting a decoded image through itself always succeeds on a decoded
    canvas. *)
Lemma paste_self_ok (self im : Image) (x0 y0 : Z) (dst src : Raster) :
  pixels self = Some dst -> pixels im = Some src ->
  paste self im (x0, y0) im =
    Ok (mkImage (mode self) (width self) (height self)
          (Some (fun x y =>
                   if (x0 <=? x) && (x <? x0 + width im) && (y0 <=? y) && (y <? y0 + height im)
                   then blend_pixel (alpha (src (x - x0) (y - y0))) (dst x y) (src (x - x0) (y - y0))
                   else dst x y))).
Proof.
  intros Hd Hs. unfold paste, load, rbind. rewrite Hs, Hd.
  rewrite !Z.eqb_refl. reflexivity.
Qed.

(** The canvas that leaves the loop body is an RGBA raster of the target
    size. *)
Lemma render_icon_shape (img : Image) (size : Z) (sf : float) (im : Image) :
  render_icon img size sf = Ok im ->
  mode im = RGBA /\ width im = size /\ height im = size /\
  exists px, pixels im = Some px.
Proof.
  unfold render_icon, rbind. intros Hr.
  destruct (content_size size sf) as [cs|]; [|discriminate].
  destruct (resize img (cs, cs)) as [sc|]; [|discriminate].
  destruct (new RGBA (size, size) transparent) as [fi|] eqn:Hn; [|discriminate].
  apply new_shape in Hn as (_ & _ & ->).
  destruct (cs >? size).
  - destruct (crop sc _) as [c|]; [|discriminate].
    apply paste_shape in Hr. simpl in Hr. exact Hr.
  - apply paste_shape in Hr. simpl in Hr. exact Hr.
Qed.

End LibraryFacts.

(** ** Facts about binary64 rounding *)

(** The number of binary digits brackets a positive number between two powers
    of two. *)
Lemma digits2_pos_bounds (p : positive) :
  2 ^ (Zpos (digits2_pos p) - 1) <= Zpos p < 2 ^ Zpos (digits2_pos p).
Proof.
  induction p as [p IH|p IH|]; cbn [digits2_pos].
  - rewrite Pos2Z.inj_succ. replace (Z.succ (Zpos (digits2_pos p)) - 1) with (Zpos (digits2_pos p) - 1 + 1) by lia.
    rewrite Z.pow_succ_r by lia. rewrite Z.pow_add_r by lia. change (2 ^ 1) with 2. lia.
  - rewrite Pos2Z.inj_succ. replace (Z.succ (Zpos (digits2_pos p)) - 1) with (Zpos (digits2_pos p) - 1 + 1) by lia.
    rewrite Z.pow_succ_r by lia. rewrite Z.pow_add_r by lia. change (2 ^ 1) with 2. lia.
  - simpl. lia.
Qed.

Lemma Zdigits2_le (x k : Z) : 0 <= k -> 0 <= x < 2 ^ k -> Zdigits2 x <= k.
Proof.
  intros Hk [Hx Hlt]. destruct x as [|p|p]; simpl; [lia| |lia].
  pose proof (digits2_pos_bounds p) as [Hlo _].
  destruct (Z.le_gt_cases (Zpos (digits2_pos p)) k) as [|Hgt]; [done|].
  exfalso. assert (2 ^ k <= 2 ^ (Zpos (digits2_pos p) - 1)) by (apply Z.pow_le_mono_r; lia). lia.
Qed.

Lemma shr_1_spec (mrs : shr_record) :
  0 <= shr_m mrs -> shr_m (shr_1 mrs) = shr_m mrs / 2.
Proof.
  destruct mrs as [m r s]. cbn [shr_m]. intros Hm.
  destruct m as [|[p|p|]|p]; cbn [shr_1 shr_m]; try lia.
  - reflexivity.
  - rewrite Pos2Z.inj_xI. apply (Z.div_unique _ _ _ 1); lia.
  - rewrite Pos2Z.inj_xO. apply (Z.div_unique _ _ _ 0); lia.
  - reflexivity.
Qed.

Lemma iter_shr_1_spec (p : positive) (mrs : shr_record) :
  0 <= shr_m mrs -> shr_m (SpecFloat.iter_pos shr_1 p mrs) = shr_m mrs / 2 ^ Zpos p.
Proof.
  revert mrs. induction p as [p IH|p IH|]; intros mrs Hm; cbn [SpecFloat.iter_pos].
  - assert (H1 : 0 <= shr_m (shr_1 mrs)) by (rewrite shr_1_spec by done; apply Z.div_pos; lia).
    assert (H2 : 0 <= shr_m (SpecFloat.iter_pos shr_1 p (shr_1 mrs))) by (rewrite IH by done; apply Z.div_pos; lia).
    rewrite IH, IH, shr_1_spec by done.
    rewrite !Z.div_div by lia. f_equal.
    replace (Z.pos p~1) with (1 + Z.pos p + Z.pos p) by lia.
    rewrite !Z.pow_add_r by lia. change (2 ^ 1) with 2. ring.
  - assert (H2 : 0 <= shr_m (SpecFloat.iter_pos shr_1 p mrs)) by (rewrite IH by done; apply Z.div_pos; lia).
    rewrite IH, IH by done. rewrite !Z.div_div by lia. f_equal.
    replace (Z.pos p~0) with (Z.pos p + Z.pos p) by lia.
    rewrite !Z.pow_add_r by lia. ring.
  - rewrite shr_1_spec by done. reflexivity.
Qed.

Lemma shr_spec (mrs : shr_record) (e n : Z) :
  0 <= shr_m mrs ->
  shr_m (fst (shr mrs e n)) = shr_m mrs / 2 ^ Z.max 0 n /\
  snd (shr mrs e n) = e + Z.max 0 n.
Proof.
  intros Hm. destruct n as [|p|p]; cbn [shr fst snd].
  - rewrite Z.div_1_r. lia.
  - rewrite iter_shr_1_spec by done. rewrite Z.max_r by lia. lia.
  - simpl. rewrite Z.div_1_r. lia.
Qed.

Lemma round_nearest_even_bounds (m : Z) (l : location) :
  m <= round_nearest_even m l <= m + 1.
Proof.
  destruct l as [|[]]; cbn [round_nearest_even]; try lia.
  destruct (Z.even m); lia.
Qed.

(** Rounding a positive value [M * 2^E] below [2^52] never falls under an
    integer [N] that the value reaches: the result is zero or a finite float
    [m * 2^e] with [e <= 0] whose integer part is at least [N]. *)
Lemma round_lower (M E N : Z) :
  0 < M -> E <= 0 -> Zdigits2 M + E <= 52 -> N * 2 ^ (- E) <= M ->
  exists m e,
    0 <= m /\ e <= 0 /\ N <= m / 2 ^ (- e) /\
    binary_round_aux prec emax false M E loc_Exact =
      match m with
      | Z0 => S754_zero false
      | Zpos p => S754_finite false p e
      | Zneg _ => S754_nan
      end.
Proof.
  intros HM HE Hdig HN.
  unfold binary_round_aux, shr_fexp.
  set (r0 := shr_record_of_loc M loc_Exact).
  assert (Hr0 : shr_m r0 = M) by reflexivity.
  set (n1 := fexp prec emax (Zdigits2 M + E) - E).
  pose proof (shr_spec r0 E n1 ltac:(lia)) as [Hm1 He1].
  destruct (shr r0 E n1) as [mrs1 e1]. cbn [fst snd] in Hm1, He1.
  rewrite Hr0 in Hm1.
  set (a1 := Z.max 0 n1) in *.
  assert (Ha1 : 0 <= a1) by lia.
  assert (He1' : e1 <= 0).
  { subst e1 a1 n1. unfold fexp, emin, prec, emax. lia. }
  set (mr := round_nearest_even (shr_m mrs1) (loc_of_shr_record mrs1)).
  pose proof (round_nearest_even_bounds (shr_m mrs1) (loc_of_shr_record mrs1)) as Hmr.
  fold mr in Hmr.
  assert (Hm1pos : 0 <= shr_m mrs1) by (rewrite Hm1; apply Z.div_pos; lia).
  set (r1 := shr_record_of_loc mr loc_Exact).
  assert (Hr1 : shr_m r1 = mr) by reflexivity.
  set (n2 := fexp prec emax (Zdigits2 mr + e1) - e1).
  pose proof (shr_spec r1 e1 n2 ltac:(lia)) as [Hm2 He2].
  destruct (shr r1 e1 n2) as [mrs2 e2]. cbn [fst snd] in Hm2, He2.
  rewrite Hr1 in Hm2.
  set (a2 := Z.max 0 n2) in *.
  assert (Ha2 : 0 <= a2) by lia.
  (* the rounded mantissa stays below 2^(53 - e1) *)
  assert (Hmrlt : mr < 2 ^ (53 - e1)).
  { pose proof (digits2_pos_bounds (Z.to_pos M)) as [_ Hup].
    assert (HMup : M < 2 ^ Zdigits2 M).
    { destruct M as [|p|p]; try lia. exact Hup. }
    assert (HM2 : M < 2 ^ a1 * 2 ^ (52 - E - a1)).
    { destruct (Z.le_gt_cases a1 (52 - E)) as [Hle|Hgt].
      - rewrite <- Z.pow_add_r by lia. replace (a1 + (52 - E - a1)) with (52 - E) by lia.
        eapply Z.lt_le_trans; [exact HMup|]. apply Z.pow_le_mono_r; lia.
      - exfalso. subst a1 n1. unfold fexp, emin, prec, emax in Hgt. lia. }
    assert (shr_m mrs1 < 2 ^ (52 - E - a1)).
    { rewrite Hm1. apply Z.div_lt_upper_bound; [apply Z.pow_pos_nonneg; lia|exact HM2]. }
    replace (53 - e1) with (Z.succ (52 - E - a1)) by lia.
    rewrite Z.pow_succ_r by (subst a1 n1; unfold fexp, emin, prec, emax; lia).
    lia. }
  assert (He2' : e2 <= 0).
  { assert (Zdigits2 mr <= 53 - e1) by (apply Zdigits2_le; lia).
    subst e2 a2 n2. unfold fexp, emin, prec, emax. lia. }
  exists (shr_m mrs2), e2.
  split; [rewrite Hm2; apply Z.div_pos; [lia|apply Z.pow_pos_nonneg; lia]|].
  split; [exact He2'|]. split.
  - rewrite Hm2, Z.div_div by (try apply Z.pow_pos_nonneg; lia).
    rewrite <- Z.pow_add_r by lia. replace (a2 + - e2) with (- e1) by lia.
    apply Z.le_trans with (shr_m mrs1 / 2 ^ (- e1)).
    + rewrite Hm1, Z.div_div by (try apply Z.pow_pos_nonneg; lia).
      rewrite <- Z.pow_add_r by lia. replace (a1 + - e1) with (- E) by lia.
      apply Z.div_le_lower_bound; [apply Z.pow_pos_nonneg; lia|lia].
    + apply Z.div_le_mono; [apply Z.pow_pos_nonneg; lia|lia].
  - assert (Hpos2 : 0 <= shr_m mrs2)
      by (rewrite Hm2; apply Z.div_pos; [lia|apply Z.pow_pos_nonneg; lia]).
    destruct (shr_m mrs2) as [|p|p]; [reflexivity| |lia].
    destruct (Z.leb_spec e2 (emax - prec)); [reflexivity|].
    unfold emax, prec in *. lia.
Qed.

Lemma iter_xO_spec (p d : positive) :
  Zpos (Pos.iter xO p d) = Zpos p * 2 ^ Zpos d /\
  Zpos (digits2_pos (Pos.iter xO p d)) = Zpos (digits2_pos p) + Zpos d.
Proof.
  induction d as [|d IH] using Pos.peano_ind.
  - cbn [Pos.iter digits2_pos]. rewrite Pos2Z.inj_succ. change (2 ^ 1) with 2. lia.
  - rewrite Pos.iter_succ. cbn [digits2_pos]. destruct IH as [IH1 IH2].
    rewrite !Pos2Z.inj_succ, Z.pow_succ_r by lia.
    replace (Z.pos (Pos.iter xO p d)~0) with (2 * Z.pos (Pos.iter xO p d)) by lia.
    lia.
Qed.

Lemma binary_round_aux_keeps (m : positive) (e : Z) :
  Zpos (digits2_pos m) = 53 -> -1074 <= e <= 971 ->
  binary_round_aux prec emax false (Zpos m) e loc_Exact = S754_finite false m e.
Proof.
  intros Hd He. unfold binary_round_aux, shr_fexp. cbn [Zdigits2].
  rewrite Hd.
  assert (Hn : fexp prec emax (53 + e) - e = 0) by (unfold fexp, emin, prec, emax; lia).
  rewrite Hn. cbn [shr shr_record_of_loc loc_of_shr_record shr_m round_nearest_even Zdigits2].
  rewrite Hd, Hn. cbn [shr shr_m].
  destruct (Z.leb_spec e (emax - prec)); [reflexivity|]. unfold emax, prec in *. lia.
Qed.

(** An integer below [2^53] converts to a float without rounding. *)
Lemma binary_normalize_int (size : Z) :
  0 < size < 2 ^ 53 ->
  exists ms es,
    binary_normalize prec emax size 0 false = S754_finite false ms es /\
    -52 <= es <= 0 /\ Zpos ms = size * 2 ^ (- es) /\
    es = Zdigits2 size - 53.
Proof.
  intros [Hpos Hlt]. destruct size as [|p|p]; try lia.
  cbn [binary_normalize Zdigits2]. unfold binary_round.
  assert (Hd : 1 <= Zpos (digits2_pos p) <= 53).
  { split; [lia|]. apply (Zdigits2_le (Zpos p) 53); lia. }
  assert (Hf : fexp prec emax (Zpos (digits2_pos p) + 0) = Zpos (digits2_pos p) - 53)
    by (unfold fexp, emin, prec, emax; lia).
  rewrite Hf. unfold shl_align.
  destruct (Zpos (digits2_pos p) - 53 - 0) as [|d|d] eqn:Hdiff; try lia.
  - exists p, 0. rewrite binary_round_aux_keeps by lia.
    repeat split; try lia.
  - destruct (iter_xO_spec p d) as [Hv Hdg].
    exists (Pos.iter xO p d), (Zpos (digits2_pos p) - 53).
    rewrite binary_round_aux_keeps by lia.
    split; [reflexivity|]. split; [lia|]. split; [|reflexivity].
    rewrite Hv. f_equal. f_equal. lia.
Qed.

(** ** Facts about the loop *)

Lemma join_inj (a b1 b2 : string) :
  os_path.startswith_slash b1 = false ->
  os_path.startswith_slash b2 = false ->
  os_path.join a b1 = os_path.join a b2 -> b1 = b2.
Proof.
  unfold os_path.join. intros -> ->.
  destruct (String.eqb a EmptyString || os_path.endswith_slash a); intros Heq.
  - by apply (inj (String.app a)) in Heq.
  - apply (inj (String.app a)) in Heq. by apply (inj (String.app "/")) in Heq.
Qed.

Lemma UNIQUE_SIZES_paths_NoDup (output_dir : string) :
  NoDup (output_paths output_dir UNIQUE_SIZES).
Proof.
  unfold output_paths. apply NoDup_fmap_2_strong.
  - intros b1 b2 H1 H2. apply join_inj.
    + revert H1. generalize b1. apply Forall_forall.
      vm_compute. repeat constructor.
    + revert H2. generalize b2. apply Forall_forall.
      vm_compute. repeat constructor.
  - apply (bool_decide_unpack _). vm_compute. exact I.
Qed.

Section LoopFacts.
Context `{Platform}.

Lemma Image_save_ok (im : Image) (path : string) (fmt : Format) (w w' : World) :
  Image_save im path fmt w = (Ok tt, w') ->
  w' = mkWorld (<[path := ImageFile fmt im]> (fs w)) (write_error w) (stdout w) (stderr w).
Proof.
  unfold Image_save. intros Hs.
  destruct (load im); [|discriminate].
  destruct (fs w !! path) as [[]|]; try discriminate;
    destruct (write_error w path) as [[]|]; try discriminate; congruence.
Qed.

Lemma Image_save_raise (im : Image) (path : string) (fmt : Format) (w w' : World) (e : Exn) :
  Image_save im path fmt w = (Raise e, w') ->
  w' = w /\ is_Exception e = true.
Proof.
  unfold Image_save, load. intros Hs.
  destruct (pixels im); [|injection Hs as <- <-; auto].
  destruct (fs w !! path) as [[]|];
    try (injection Hs as <- <-; auto; fail);
    destruct (write_error w path) as [[]|]; try discriminate;
    injection Hs as <- <-; auto.
Qed.

(** No expression of the loop body raises [SystemExit]. *)
Lemma float_of_int_Exception (n : Z) (e : Exn) :
  float_of_int n = Raise e -> is_Exception e = true.
Proof. unfold float_of_int. destruct (binary_normalize _ _ _ _ _); by intros [= <-]. Qed.

Lemma int_of_float_Exception (x : float) (e : Exn) :
  int_of_float x = Raise e -> is_Exception e = true.
Proof. destruct x; simpl; try discriminate; by intros [= <-]. Qed.

Lemma content_size_Exception (size : Z) (sf : float) (e : Exn) :
  content_size size sf = Raise e -> is_Exception e = true.
Proof.
  unfold content_size, mul_int_float, rbind.
  destruct (float_of_int size) eqn:Hf.
  - apply int_of_float_Exception.
  - intros [= <-]. by apply float_of_int_Exception in Hf.
Qed.

Lemma load_Exception (im : Image) (e : Exn) :
  load im = Raise e -> is_Exception e = true.
Proof. unfold load. destruct (pixels im); [discriminate|by intros [= <-]]. Qed.

Lemma resize_Exception (im : Image) (sz : Z * Z) (e : Exn) :
  resize im sz = Raise e -> is_Exception e = true.
Proof.
  unfold resize, rbind. destruct sz as [w h].
  destruct (load im) eqn:Hl; [|intros [= <-]; by apply load_Exception in Hl].
  destruct (_ || _); [by intros [= <-]|discriminate].
Qed.

Lemma new_Exception (m : Mode) (sz : Z * Z) (c : Pixel) (e : Exn) :
  new m sz c = Raise e -> is_Exception e = true.
Proof. unfold new. destruct sz. destruct (_ || _); [by intros [= <-]|discriminate]. Qed.

Lemma crop_Exception (im : Image) (box : Z * Z * Z * Z) (e : Exn) :
  crop im box = Raise e -> is_Exception e = true.
Proof.
  unfold crop, rbind. destruct box as [[[x0 y0] x1] y1].
  destruct (x1 <? x0); [by intros [= <-]|].
  destruct (y1 <? y0); [by intros [= <-]|].
  destruct (load im) eqn:Hl; [discriminate|intros [= <-]; by apply load_Exception in Hl].
Qed.

Lemma paste_Exception (self im mask : Image) (pos : Z * Z) (e : Exn) :
  paste self im pos mask = Raise e -> is_Exception e = true.
Proof.
  unfold paste, rbind. destruct pos as [x0 y0].
  destruct (load im) eqn:H1; [|intros [= <-]; by apply load_Exception in H1].
  destruct (load mask) eqn:H2; [|intros [= <-]; by apply load_Exception in H2].
  destruct (load self) eqn:H3; [|intros [= <-]; by apply load_Exception in H3].
  destruct (negb _); [by intros [= <-]|discriminate].
Qed.

Lemma render_icon_Exception (img : Image) (size : Z) (sf : float) (e : Exn) :
  render_icon img size sf = Raise e -> is_Exception e = true.
Proof.
  unfold render_icon, rbind.
  destruct (content_size size sf) as [cs|] eqn:H1;
    [|intros [= <-]; by apply content_size_Exception in H1].
  destruct (resize img (cs, cs)) as [sc|] eqn:H2;
    [|intros [= <-]; by apply resize_Exception in H2].
  destruct (new RGBA (size, size) transparent) as [fi|] eqn:H3;
    [|intros [= <-]; by apply new_Exception in H3].
  destruct (cs >? size).
  - destruct (crop sc _) as [c|] eqn:H4;
      [|intros [= <-]; by apply crop_Exception in H4].
    apply paste_Exception.
  - apply paste_Exception.
Qed.

(** A successful pass through the loop body writes the rendering of the
    entry at its path, prints one line and touches nothing else. *)
Lemma generate_size_ok (img : Image) (out : string) (sf : float) (size : Z)
    (fn : string) (w w' : World) :
  generate_size img out sf size fn w = (Ok tt, w') ->
  exists im,
    render_icon img size sf = Ok im /\
    w' = mkWorld (<[os_path.join out fn := ImageFile PNG im]> (fs w)) (write_error w)
           (stdout w ++ ["✓ Generated " +:+ str_int size +:+ "x" +:+ str_int size
                           +:+ " -> " +:+ fn])
           (stderr w).
Proof.
  unfold generate_size, bind, lift, print, printed. intros Hg.
  destruct (render_icon img size sf) as [im|]; [|discriminate].
  destruct (Image_save im _ PNG w) as [[[]|e] w1] eqn:Hs; [|discriminate].
  apply Image_save_ok in Hs as ->. simpl in Hg.
  exists im. split; [done|]. congruence.
Qed.

(** A pass that raises leaves the world as it found it, and what it raises
    is an [Exception]. *)
Lemma generate_size_raise (img : Image) (out : string) (sf : float) (size : Z)
    (fn : string) (w w' : World) (e : Exn) :
  generate_size img out sf size fn w = (Raise e, w') ->
  w' = w /\ is_Exception e = true.
Proof.
  unfold generate_size, bind, lift, print, printed. intros Hg.
  destruct (render_icon img size sf) as [im|] eqn:Hr.
  - destruct (Image_save im _ PNG w) as [[[]|e'] w1] eqn:Hs; [discriminate|].
    injection Hg as <- <-. by apply Image_save_raise in Hs.
  - injection Hg as <- <-. split; [done|]. by apply render_icon_Exception in Hr.
Qed.

(** Unfolding of the loop at an entry with a file name. *)
Lemma for_sizes_cons_ok (img : Image) (out : string) (sf : float) (size : Z)
    (fn : string) (rest : list (Z * option string)) (w w1 : World) :
  generate_size img out sf size fn w = (Ok tt, w1) ->
  for_sizes ((size, Some fn) :: rest) img out sf w = for_sizes rest img out sf w1.
Proof. intros Hg. simpl. unfold bind, try_except. by rewrite Hg. Qed.

Lemma for_sizes_cons_raise (img : Image) (out : string) (sf : float) (size : Z)
    (fn : string) (rest : list (Z * option string)) (w : World) (e : Exn) :
  generate_size img out sf size fn w = (Raise e, w) ->
  for_sizes ((size, Some fn) :: rest) img out sf w =
    (Ok false,
     mkWorld (fs w) (write_error w)
       (stdout w ++ ["✗ Error generating " +:+ str_int size +:+ "x" +:+ str_int size
                       +:+ ": " +:+ str_exn e])
       (stderr w)).
Proof.
  intros Hg. simpl. unfold bind, try_except. rewrite Hg.
  apply generate_size_raise in Hg as [_ ->]. reflexivity.
Qed.


(** What a loop that returns [True] leaves behind: paths outside of the
    table are as before, and every entry with a file name has its own
    rendering at its path, provided no later entry writes to the same path. *)
Lemma for_sizes_true_frame (items : list (Z * option string)) (img : Image)
    (out : string) (sf : float) (w w' : World) :
  for_sizes items img out sf w = (Ok true, w') ->
  write_error w' = write_error w /\ stderr w' = stderr w /\
  forall p, p ∉ output_paths out items -> fs w' !! p = fs w !! p.
Proof.
  revert w. induction items as [|[size [fn|]] rest IH]; intros w Hf.
  - injection Hf as <-. auto.
  - destruct (generate_size img out sf size fn w) as [[[]|e] w1] eqn:Hg.
    + erewrite for_sizes_cons_ok in Hf by done.
      apply generate_size_ok in Hg as (im & _ & ->).
      apply IH in Hf as (-> & -> & Hfr). simpl. split; [done|]. split; [done|].
      intros p Hp. unfold output_paths, filenames in Hp. simpl in Hp.
      apply not_elem_of_cons in Hp as [Hne Hp].
      rewrite Hfr by done. simpl. by rewrite lookup_insert_ne.
    + pose proof Hg as Hg'. apply generate_size_raise in Hg' as [-> _].
      erewrite for_sizes_cons_raise in Hf by done. discriminate.
  - apply IH in Hf. exact Hf.
Qed.

Lemma for_sizes_true_files (items : list (Z * option string)) (img : Image)
    (out : string) (sf : float) (w w' : World) :
  for_sizes items img out sf w = (Ok true, w') ->
  NoDup (output_paths out items) ->
  forall size fn, (size, Some fn) ∈ items ->
    exists im, render_icon img size sf = Ok im /\
      fs w' !! os_path.join out fn = Some (ImageFile PNG im).
Proof.
  revert w. induction items as [|[size0 [fn0|]] rest IH]; intros w Hf Hnd size fn Hin.
  - by apply elem_of_nil in Hin.
  - unfold output_paths, filenames in Hnd. simpl in Hnd.
    apply NoDup_cons in Hnd as [Hfresh Hnd].
    destruct (generate_size img out sf size0 fn0 w) as [[[]|e] w1] eqn:Hg.
    + erewrite for_sizes_cons_ok in Hf by done.
      apply generate_size_ok in Hg as (im & Hr & ->).
      apply elem_of_cons in Hin as [[= -> ->]|Hin].
      * exists im. split; [done|].
        apply for_sizes_true_frame in Hf as (_ & _ & Hfr).
        rewrite Hfr by done. simpl. by rewrite lookup_insert_eq.
      * by apply (IH _ Hf Hnd).
    + pose proof Hg as Hg'. apply generate_size_raise in Hg' as [-> _].
      erewrite for_sizes_cons_raise in Hf by done. discriminate.
  - apply elem_of_cons in Hin as [[=]|Hin]. by apply (IH _ Hf Hnd).
Qed.

End LoopFacts.

(** ** Facts about [generate_icons] *)

Section RunFacts.
Context `{Platform}.

(** The first [try]: when it gets through, the source is an image file, two
    lines are printed and the file system is as before. *)
Lemma percent_bigger_Exception (sf : float) (e : Exn) :
  percent_bigger sf = Raise e -> is_Exception e = true.
Proof.
  unfold percent_bigger, sub_float_int, mul_float_int, rbind. intros Hp.
  destruct (float_of_int 1) eqn:H1;
    [|injection Hp as <-; by apply float_of_int_Exception in H1].
  destruct (float_of_int 100) eqn:H2;
    [|injection Hp as <-; by apply float_of_int_Exception in H2].
  by apply int_of_float_Exception in Hp.
Qed.

Lemma open_source_ok (src : string) (sf : float) (w w1 : World) (img : Image) :
  open_source src sf w = (Ok img, w1) ->
  (exists fmt, fs w !! src = Some (ImageFile fmt img)) /\
  fs w1 = fs w /\ write_error w1 = write_error w /\ stderr w1 = stderr w /\
  exists l1 l2, stdout w1 = (stdout w ++ [l1; l2])%list.
Proof.
  unfold open_source, bind, Image_open, print, printed, lift, ret. intros Ho.
  destruct (fs w !! src) as [[| |fmt im]|] eqn:Hs; try discriminate.
  destruct (percent_bigger sf) as [pc|]; [|discriminate].
  injection Ho as <- <-. cbn [fs write_error stdout stderr].
  split; [eauto|]. repeat split. rewrite <- app_assoc. simpl. eauto.
Qed.

Lemma open_source_raise (src : string) (sf : float) (w w1 : World) (e : Exn) :
  open_source src sf w = (Raise e, w1) ->
  is_Exception e = true /\ fs w1 = fs w /\ write_error w1 = write_error w /\
  stderr w1 = stderr w /\ (length (stdout w) <= length (stdout w1))%nat.
Proof.
  unfold open_source, bind, Image_open, print, printed, lift, ret. intros Ho.
  destruct (fs w !! src) as [[| |fmt im]|] eqn:Hs;
    try (injection Ho as <- <-; auto 10; fail).
  destruct (percent_bigger sf) as [pc|] eqn:Hp; [discriminate|].
  injection Ho as <- <-. cbn [fs write_error stdout stderr].
  rewrite length_app. repeat split; [|lia].
  by apply percent_bigger_Exception in Hp.
Qed.

(** A run that returns [True] went through the whole table. *)
Lemma generate_icons_true (src out : string) (sf : float) (w w' : World) :
  generate_icons src out sf w = (Ok true, w') ->
  exists fmt img0 img w1,
    fs w !! src = Some (ImageFile fmt img0) /\
    rgba_of img0 = Ok img /\
    fs w1 = fs w /\ write_error w1 = write_error w /\
    for_sizes UNIQUE_SIZES img out sf w1 = (Ok true, w').
Proof.
  unfold generate_icons, bind at 1, try_except. intros Hg.
  destruct (open_source src sf w) as [[img0|e] w1] eqn:Ho.
  - apply open_source_ok in Ho as ([fmt Hs] & Hfs & Hwe & _ & _).
    unfold bind at 1 in Hg. unfold rgba_of.
    destruct (negb (mode_eqb (mode img0) RGBA)) eqn:Hm.
    + unfold lift in Hg. destruct (convert img0 RGBA) as [img|] eqn:Hc; [|discriminate].
      exists fmt, img0, img, w1. rewrite ?Hm. auto.
    + unfold ret in Hg. exists fmt, img0, img0, w1. rewrite ?Hm. auto.
  - apply open_source_raise in Ho as (He & _). rewrite He in Hg.
    unfold bind, print, ret in Hg. discriminate.
Qed.

(** After a run that returned [True], every entry with a file name has its
    rendering at its path. *)
Lemma generate_icons_true_files (src out : string) (sf : float) (w w' : World) :
  generate_icons src out sf w = (Ok true, w') ->
  exists fmt img0 img,
    fs w !! src = Some (ImageFile fmt img0) /\
    rgba_of img0 = Ok img /\
    (forall size fn, (size, Some fn) ∈ UNIQUE_SIZES ->
       exists im, render_icon img size sf = Ok im /\
         fs w' !! os_path.join out fn = Some (ImageFile PNG im)) /\
    (forall p, p ∉ output_paths out UNIQUE_SIZES -> fs w' !! p = fs w !! p).
Proof.
  intros Hg. apply generate_icons_true in Hg as (fmt & img0 & img & w1 & Hs & Hr & Hfs & _ & Hf).
  exists fmt, img0, img. split; [done|]. split; [done|]. split.
  - apply (for_sizes_true_files _ _ _ _ _ _ Hf), UNIQUE_SIZES_paths_NoDup.
  - intros p Hp. apply for_sizes_true_frame in Hf as (_ & _ & Hfr).
    rewrite Hfr by done. by rewrite Hfs.
Qed.

End RunFacts.

(** ** The properties *)

(** The outcome of a statement, from its first component alone. *)
Lemma outcome_eta {A} (p : Result A * World) (r : Result A) :
  fst p = r -> p = (r, snd p).
Proof. destruct p. simpl. by intros ->. Qed.

(** Closes [p = (r, snd p)] on a closed [p] by evaluating its outcome. *)
Ltac by_outcome :=
  match goal with
  | |- ?p = (?r, _) => exact (outcome_eta p r ltac:(vm_compute; reflexivity))
  end.

(** C1: after a run of [generate_icons] that returns [True], every entry
    [(size, filename)] of the table with a file name has, at
    [os.path.join(output_dir, filename)], a file in PNG format that holds an
    RGBA raster of exactly [size] by [size] pixels: the canvas allocated for
    that entry. *)
Theorem generate_icons_writes_png `{Platform} (src out : string) (sf : float)
    (w w' : World) (size : Z) (fn : string) :
  generate_icons src out sf w = (Ok true, w') ->
  (size, Some fn) ∈ UNIQUE_SIZES ->
  exists im,
    fs w' !! os_path.join out fn = Some (ImageFile PNG im) /\
    mode im = RGBA /\ width im = size /\ height im = size /\
    is_Some (pixels im).
Proof.
  intros Hg Hin.
  apply generate_icons_true_files in Hg as (fmt & img0 & img & _ & _ & Hfiles & _).
  destruct (Hfiles size fn Hin) as (im & Hr & Hf).
  apply render_icon_shape in Hr as (Hm & Hw & Hh & px & Hpx).
  exists im. rewrite Hpx. eauto 10.
Qed.

Lemma generate_icons_writes_png_witness :
  exists im,
    fs (snd (generate_icons (H := Sample.nearest) source output float_1_2
               (Sample.world_with Sample.opaque_rgb)))
      !! os_path.join output "writing shed 1024.png" = Some (ImageFile PNG im) /\
    mode im = RGBA /\ width im = 1024 /\ height im = 1024 /\
    is_Some (pixels im).
Proof.
  apply (generate_icons_writes_png (H := Sample.nearest) source output float_1_2
           (Sample.world_with Sample.opaque_rgb)).
  - apply outcome_eta. vm_compute. reflexivity.
  - unfold UNIQUE_SIZES. repeat constructor.
Defined.

(** The branch of the loop body is decided by the content size alone. *)
Lemma render_icon_cases `{Platform} (img : Image) (size : Z) (sf : float) (cs : Z) :
  content_size size sf = Ok cs ->
  render_icon img size sf =
    if cs >? size then cropped img size cs else centred img size cs.
Proof.
  intros Hcs. unfold render_icon, cropped, centred. rewrite Hcs. cbn [rbind].
  destruct (resize img (cs, cs)) as [sc|]; cbn [rbind]; [|by destruct (cs >? size)].
  destruct (new RGBA (size, size) transparent) as [fi|]; cbn [rbind];
    by destruct (cs >? size).
Qed.

(** The content sizes of the table at the default scale factor. *)
Lemma content_sizes_at_default :
  map (fun e => content_size (fst e) float_1_2) UNIQUE_SIZES =
  map Ok [24; 34; 48; 69; 72; 91; 96; 104; 144; 182; 200; 216; 1228].
Proof. vm_compute. reflexivity. Qed.

(** Multiplying by [1.0] is exact on the sizes of the table. *)
Lemma content_sizes_at_one :
  Forall (fun e => content_size (fst e) float_1_0 = Ok (fst e)) UNIQUE_SIZES.
Proof. unfold UNIQUE_SIZES. repeat constructor. Qed.

(** C3: for [size = 60] and [scale_factor = 1.2] the content size is 72, the
    crop margin is 6, and the loop body crops the resized content with the
    box [(6, 6, 66, 66)] before pasting it at the origin of the canvas. *)
Theorem render_60_at_1_2 `{Platform} (img : Image) :
  content_size 60 float_1_2 = Ok 72 /\
  crop_margin 72 60 = 6 /\
  render_icon img 60 float_1_2 =
    (scaled <- resize img (72, 72) ;;;
     canvas <- new RGBA (60, 60) transparent ;;;
     c <- crop scaled (6, 6, 66, 66) ;;;
     paste canvas c (0, 0) c).
Proof.
  assert (Hcs : content_size 60 float_1_2 = Ok 72) by (vm_compute; reflexivity).
  split; [exact Hcs|]. split; [reflexivity|].
  rewrite (render_icon_cases _ _ _ _ Hcs). reflexivity.
Qed.

(** C2, as stated, fails: 1.01 is greater than 1.0, yet at the table size 29
    the product 29.29 truncates to 29, which is not greater than the size. *)
Lemma content_size_not_always_larger :
  ~ (forall (size : Z) (sf : float) (cs : Z),
       0 < size -> float_gt sf float_1_0 = true ->
       content_size size sf = Ok cs -> size < cs).
Proof.
  intros Hall.
  enough (Hlt : 29 < 29) by lia.
  apply (Hall 29 float_1_01 29); [lia | | ]; vm_compute; reflexivity.
Qed.

(** The content size is at least every integer that the exact product
    [size * (m * 2^e)] reaches, for sizes below [2^31] and positive scale
    factors below [2^21]. *)
Lemma content_size_lower (size : Z) (m : positive) (e n : Z) :
  0 < size < 2 ^ 31 -> Zpos m < 2 ^ 53 -> e <= -32 ->
  n * 2 ^ (- e) <= size * Zpos m ->
  exists cs, content_size size (S754_finite false m e) = Ok cs /\ n <= cs.
Proof.
  intros Hsize Hm He Hn.
  destruct (binary_normalize_int size) as (ms & es & Hfl & Hes & Hms & Hdig); [lia|].
  assert (Hes' : es <= -22).
  { assert (Zdigits2 size <= 31) by (apply Zdigits2_le; lia). lia. }
  assert (Hmslt : Zpos ms < 2 ^ 53).
  { rewrite Hms. destruct size as [|p|p]; try lia. cbn [Zdigits2] in Hdig.
    pose proof (digits2_pos_bounds p) as [_ Hup].
    replace 53 with (Zpos (digits2_pos p) + - es) by lia.
    rewrite Z.pow_add_r by lia. apply Z.mul_lt_mono_pos_r; [apply Z.pow_pos_nonneg; lia|done]. }
  destruct (round_lower (Zpos (ms * m)) (es + e) n) as (m' & e' & Hm' & He' & Hlow & Hround).
  - lia.
  - lia.
  - assert (Zdigits2 (Zpos (ms * m)) <= 106); [|lia].
    apply Zdigits2_le; [lia|]. split; [lia|].
    rewrite Pos2Z.inj_mul. change (2 ^ 106) with (2 ^ 53 * 2 ^ 53).
    apply Z.mul_lt_mono_nonneg; lia.
  - rewrite Pos2Z.inj_mul, Hms.
    replace (- (es + e)) with (- e + - es) by lia. rewrite Z.pow_add_r by lia.
    assert (0 < 2 ^ (- es)) by (apply Z.pow_pos_nonneg; lia). nia.
  - unfold content_size, mul_int_float, float_of_int. rewrite Hfl. cbn [rbind SFmul xorb].
    rewrite Hround. destruct m' as [|p'|p']; [| |lia].
    + exists 0. split; [reflexivity|]. by rewrite Z.div_0_l in Hlow by (apply Z.pow_nonzero; lia).
    + cbn [int_of_float]. eexists. split; [reflexivity|].
      destruct (Z.leb_spec 0 e').
      * assert (e' = 0) as -> by lia. by rewrite Z.div_1_r in Hlow.
      * by rewrite Z.shiftr_div_pow2 by lia.
Qed.

(** C2, amended: for a positive size below [2^31] and a scale factor
    [m * 2^e] that is at least 1 (and below [2^21]) the content size is at
    least the size, and it exceeds the size, so that the crop branch is
    taken, as soon as the exact product [size * scale_factor] reaches
    [size + 1].  At the default scale factor 1.2 this is the case for every
    size of the table. *)
Theorem crop_branch_condition `{Platform} (img : Image) (size : Z) (m : positive) (e : Z) :
  0 < size < 2 ^ 31 -> Zpos m < 2 ^ 53 -> e <= -32 ->
  2 ^ (- e) <= Zpos m ->
  exists cs,
    content_size size (S754_finite false m e) = Ok cs /\
    size <= cs /\
    (size < cs -> render_icon img size (S754_finite false m e) = cropped img size cs) /\
    ((size + 1) * 2 ^ (- e) <= size * Zpos m -> size < cs) /\
    forall size' fn, (size', fn) ∈ UNIQUE_SIZES ->
      exists cs', content_size size' float_1_2 = Ok cs' /\ size' < cs' /\
        render_icon img size' float_1_2 = cropped img size' cs'.
Proof.
  intros Hsize Hm He Hone.
  assert (Hgen : forall s sf cs, content_size s sf = Ok cs -> s < cs ->
                   render_icon img s sf = cropped img s cs).
  { intros s sf cs Hcs Hlt. rewrite (render_icon_cases _ _ _ _ Hcs).
    destruct (Z.gtb_spec cs s); [done|lia]. }
  destruct (content_size_lower size m e size) as (cs & Hcs & Hle); [done..|nia|].
  exists cs. split; [exact Hcs|]. split; [exact Hle|].
  split; [by apply Hgen|]. split.
  - intros Hreach.
    destruct (content_size_lower size m e (size + 1)) as (cs' & Hcs' & Hlt); [done..|].
    rewrite Hcs in Hcs'. injection Hcs' as <-. lia.
  - intros size' fn Hin.
    assert (Hall : forallb (fun e : Z * option string =>
              match content_size (fst e) float_1_2 with
              | Ok cs => fst e <? cs
              | Raise _ => false
              end) UNIQUE_SIZES = true) by (vm_compute; reflexivity).
    rewrite forallb_forall in Hall. apply list_elem_of_In, Hall in Hin.
    simpl in Hin. destruct (content_size size' float_1_2) as [cs'|] eqn:Hcs'; [|discriminate].
    apply Z.ltb_lt in Hin. exists cs'. split; [done|]. split; [done|]. by apply Hgen.
Qed.

Lemma crop_branch_condition_witness :
  exists cs, content_size 60 float_1_2 = Ok cs /\ 60 < cs.
Proof.
  destruct (crop_branch_condition (H := Sample.nearest) Sample.glass_rgba 60
              5404319552844595 (-52))
    as (cs & Hcs & _ & _ & Hreach & _); [lia | lia | lia | vm_compute; discriminate |].
  exists cs. split; [exact Hcs|]. apply Hreach. vm_compute. discriminate.
Defined.

(** C10, as stated, fails when the content size is below 1: at scale factor
    0.0 the content size of the entry of size 29 is 0, which is not greater
    than 29, so no crop is attempted; but [resize((0, 0))] raises, nothing is
    pasted or saved, and [generate_icons] reports the error and returns
    [False]. *)
Lemma no_paste_below_one :
  content_size 29 float_0_0 = Ok 0 /\
  render_icon (H := Sample.nearest) Sample.glass_rgba 29 float_0_0 =
    Raise (Error ValueError "height and width must be > 0") /\
  fst (generate_icons (H := Sample.nearest) source output float_0_0
         (Sample.world_with Sample.glass_rgba)) = Ok false /\
  fs (snd (generate_icons (H := Sample.nearest) source output float_0_0
             (Sample.world_with Sample.glass_rgba)))
    !! os_path.join output "writing shed iPhone Settings.png" = None.
Proof. repeat split; vm_compute; reflexivity. Qed.

(** C10, amended: when the content size is at least 1 and does not exceed the
    size, and the source decodes, the loop body does not crop: the resized
    content is pasted whole at the centring offset
    [((size - content_size) // 2, (size - content_size) // 2)] on the
    transparent canvas.  The result is [size] by [size]; inside the box of the
    content every pixel is the content laid over transparency through its own
    alpha, outside of it the canvas stays transparent, and when the content
    is smaller than the canvas the last row and column lie outside.  That
    canvas is what a successful pass saves.  When the content size is below 1
    the body raises and the pass leaves the world untouched. *)
Theorem centred_when_not_larger `{Platform} (img : Image) (size : Z) (sf : float)
    (cs : Z) :
  content_size size sf = Ok cs ->
  cs <= size ->
  (cs < 1 ->
   exists e, render_icon img size sf = Raise e /\
     forall out fn w, generate_size img out sf size fn w = (Raise e, w)) /\
  (1 <= cs ->
   forall px, pixels img = Some px ->
   let off := (size - cs) / 2 in
   let scaled := mkImage (mode img) cs cs (Some (lanczos px (im_size img) (cs, cs))) in
   exists canvas final,
     resize img (cs, cs) = Ok scaled /\
     new RGBA (size, size) transparent = Ok canvas /\
     paste canvas scaled (off, off) scaled = Ok final /\
     render_icon img size sf = Ok final /\
     width final = size /\ height final = size /\
     0 <= off /\ off + cs <= size /\ (cs < size -> off + cs < size) /\
     (forall x y, off <= x < off + cs -> off <= y < off + cs ->
        getpixel final x y =
          blend_pixel (alpha (getpixel scaled (x - off) (y - off))) transparent
            (getpixel scaled (x - off) (y - off))) /\
     (forall x y, ~ (off <= x < off + cs /\ off <= y < off + cs) ->
        getpixel final x y = transparent) /\
     (forall out fn w w', generate_size img out sf size fn w = (Ok tt, w') ->
        fs w' !! os_path.join out fn = Some (ImageFile PNG final))).
Proof.
  intros Hcs Hle. split.
  - intros Hlow.
    assert (Hrs : exists e, resize img (cs, cs) = Raise e).
    { unfold resize, load, rbind. destruct (pixels img); [|eauto].
      destruct (Z.ltb_spec cs 1); [|lia]. cbn [orb]. eauto. }
    destruct Hrs as [e Hrs]. exists e.
    assert (Hr : render_icon img size sf = Raise e).
    { rewrite (render_icon_cases _ _ _ _ Hcs).
      destruct (cs >? size); unfold cropped, centred; by rewrite Hrs. }
    split; [exact Hr|]. intros out fn w.
    unfold generate_size, bind, lift. by rewrite Hr.
  - intros Hcs1 px Hpx off scaled.
    assert (Hrs : resize img (cs, cs) = Ok scaled).
    { unfold resize, load, rbind. rewrite Hpx.
      destruct (Z.ltb_spec cs 1); [lia|]. reflexivity. }
    assert (Hoff : 0 <= off /\ off + cs <= size /\ (cs < size -> off + cs < size)).
    { subst off. pose proof (Z.div_mod (size - cs) 2 ltac:(lia)) as Hdm.
      pose proof (Z.mod_pos_bound (size - cs) 2 ltac:(lia)). lia. }
    set (canvas := mkImage RGBA size size (Some (fun _ _ => transparent))).
    assert (Hnew : new RGBA (size, size) transparent = Ok canvas)
      by (apply new_ok; lia).
    assert (Hpaste : exists final, paste canvas scaled (off, off) scaled = Ok final /\
              final = mkImage RGBA size size
                (Some (fun x y =>
                   if (off <=? x) && (x <? off + cs) && (off <=? y) && (y <? off + cs)
                   then blend_pixel (alpha (getpixel scaled (x - off) (y - off))) transparent
                          (getpixel scaled (x - off) (y - off))
                   else transparent))).
    { eexists. split; [|reflexivity].
      by rewrite (paste_self_ok canvas scaled off off (fun _ _ => transparent)
                    (lanczos px (im_size img) (cs, cs))). }
    destruct Hpaste as (final & Hpaste & Hfinal).
    assert (Hrender : render_icon img size sf = Ok final).
    { rewrite (render_icon_cases _ _ _ _ Hcs).
      destruct (Z.gtb_spec cs size); [lia|].
      unfold centred. rewrite Hrs, Hnew. exact Hpaste. }
    exists canvas, final.
    split; [exact Hrs|]. split; [exact Hnew|]. split; [exact Hpaste|].
    split; [exact Hrender|].
    split; [by subst final|]. split; [by subst final|].
    split; [apply Hoff|]. split; [apply Hoff|]. split; [apply Hoff|].
    split; [|split].
    + intros x y Hx Hy. subst final. cbn [getpixel pixels].
      destruct (Z.leb_spec off x); [|lia]. destruct (Z.ltb_spec x (off + cs)); [|lia].
      destruct (Z.leb_spec off y); [|lia]. destruct (Z.ltb_spec y (off + cs)); [|lia].
      reflexivity.
    + intros x y Hout. subst final. cbn [getpixel pixels].
      destruct (Z.leb_spec off x); [|done]. destruct (Z.ltb_spec x (off + cs)); [|done].
      destruct (Z.leb_spec off y); [|done]. destruct (Z.ltb_spec y (off + cs)); [|done].
      lia.
    + intros out fn w w' Hg. apply generate_size_ok in Hg as (im & Hr & ->).
      rewrite Hrender in Hr. injection Hr as <-. cbn [fs]. apply lookup_insert_eq.
Qed.

Lemma centred_when_not_larger_witness :
  content_size 29 float_0_5 = Ok 14 /\
  exists final,
    render_icon (H := Sample.nearest) Sample.glass_rgba 29 float_0_5 = Ok final /\
    width final = 29 /\ height final = 29 /\
    getpixel final 28 28 = transparent.
Proof.
  assert (Hcs : content_size 29 float_0_5 = Ok 14) by (vm_compute; reflexivity).
  split; [exact Hcs|].
  destruct (centred_when_not_larger (H := Sample.nearest) Sample.glass_rgba 29 float_0_5 14
              Hcs ltac:(lia))
    as (_ & Hpaste).
  destruct (Hpaste ltac:(lia) (fun _ _ => mkPixel 200 100 50 128) eq_refl)
    as (canvas & final & _ & _ & _ & Hr & Hw & Hh & _ & _ & _ & _ & Hout & _).
  exists final. split; [exact Hr|]. split; [exact Hw|]. split; [exact Hh|].
  apply Hout. change ((29 - 14) / 2) with 7. lia.
Defined.

(** C6: an entry without a file name contributes nothing: the loop over a
    table behaves, from every world, as the loop over the table with that
    entry removed, so no file is written for it and the entries after it are
    processed as if it were not there.  For the table of the script this is
    the entry [20: None]. *)
Theorem absent_filename_skipped `{Platform} (pre post : list (Z * option string))
    (size : Z) (img : Image) (out : string) (sf : float) (w : World) :
  for_sizes (pre ++ (size, None) :: post) img out sf w =
    for_sizes (pre ++ post) img out sf w /\
  for_sizes UNIQUE_SIZES img out sf w = for_sizes (tail UNIQUE_SIZES) img out sf w.
Proof.
  split; [|reflexivity].
  revert w. induction pre as [|[size0 [fn0|]] pre IH]; intros w.
  - reflexivity.
  - cbn [app for_sizes]. unfold bind.
    destruct (try_except _ w) as [[[[]|e]|e] w1]; [apply IH|reflexivity|reflexivity].
  - cbn [app for_sizes]. apply IH.
Qed.

(** Whatever it returns, [generate_icons] prints at least one line. *)
Lemma for_sizes_stdout (items : list (Z * option string)) `{Platform} (img : Image)
    (out : string) (sf : float) (w w' : World) (r : Result bool) :
  for_sizes items img out sf w = (r, w') ->
  (length (stdout w) <= length (stdout w'))%nat.
Proof.
  revert w. induction items as [|[size [fn|]] rest IH]; intros w Hf.
  - injection Hf as <- <-. lia.
  - destruct (generate_size img out sf size fn w) as [[[]|e] w1] eqn:Hg.
    + erewrite for_sizes_cons_ok in Hf by done.
      apply generate_size_ok in Hg as (im & _ & ->).
      apply IH in Hf. cbn [stdout] in Hf. rewrite length_app in Hf. lia.
    + pose proof Hg as Hg'. apply generate_size_raise in Hg' as [-> _].
      erewrite for_sizes_cons_raise in Hf by done.
      injection Hf as <- <-. cbn [stdout]. rewrite length_app. lia.
  - apply IH in Hf. exact Hf.
Qed.

Lemma generate_icons_prints `{Platform} (src out : string) (sf : float)
    (w w' : World) (r : Result bool) :
  generate_icons src out sf w = (r, w') ->
  (length (stdout w) < length (stdout w'))%nat.
Proof.
  unfold generate_icons, bind at 1, try_except. intros Hg.
  destruct (open_source src sf w) as [[img0|e] w1] eqn:Ho.
  - apply open_source_ok in Ho as (_ & _ & _ & _ & l1 & l2 & Hout).
    assert (Hlen : (length (stdout w) < length (stdout w1))%nat)
      by (rewrite Hout, length_app; simpl; lia).
    unfold bind at 1 in Hg.
    destruct (negb (mode_eqb (mode img0) RGBA)).
    + unfold lift in Hg. destruct (convert img0 RGBA) as [img|].
      * apply for_sizes_stdout in Hg. lia.
      * injection Hg as <- <-. lia.
    + unfold ret in Hg. apply for_sizes_stdout in Hg. lia.
  - apply open_source_raise in Ho as (He & _ & _ & _ & Hlen). rewrite He in Hg.
    unfold bind, print, printed, ret in Hg. injection Hg as <- <-.
    cbn [stdout]. rewrite length_app. simpl. lia.
Qed.

(** ** Facts about the [__main__] block *)

Lemma main_missing_source `{Platform} (w : World) :
  fs w !! source = None ->
  main w = (Raise (SystemExit 1),
            printed w "Error: Source image 'app_icon_source.png' not found").
Proof.
  intros Hs. unfold main, bind at 1, os_path.exists_.
  rewrite Hs, bool_decide_eq_false_2 by apply is_Some_None.
  reflexivity.
Qed.

(** With both paths in place the block announces the run, calls
    [generate_icons] and maps its answer to the exit. *)
Lemma main_runs `{Platform} (w : World) :
  is_Some (fs w !! source) ->
  is_Some (fs w !! output) ->
  main w =
    match generate_icons source output float_1_2
            (printed w "Generating app icons from app_icon_source.png...") with
    | (Ok true, w') => (Ok tt, printed w' (newline +:+ "✓ All icons generated successfully!"))
    | (Ok false, w') =>
        (Raise (SystemExit 1), printed w' (newline +:+ "✗ Failed to generate some icons"))
    | (Raise e, w') => (Raise e, w')
    end.
Proof.
  intros Hs Ho. unfold main, bind at 1, os_path.exists_.
  rewrite bool_decide_eq_true_2 by done. cbn [negb].
  unfold bind at 1, ret at 1, bind at 1.
  rewrite bool_decide_eq_true_2 by done. cbn [negb].
  unfold bind at 1, ret at 1, bind at 1, print at 1.
  unfold bind at 1.
  change ("Generating app icons from " +:+ source +:+ "...")
    with "Generating app icons from app_icon_source.png...".
  destruct (generate_icons source output float_1_2 _) as [[[]|e] w']; reflexivity.
Qed.

(** C7: when the source path does not exist the process prints one line
    and exits with status 1; the file system is left exactly as it was, and
    [generate_icons], which always prints, has not run. *)
Theorem missing_source_exits_1 `{Platform} (w : World) :
  fs w !! source = None ->
  run main w = (1, printed w "Error: Source image 'app_icon_source.png' not found") /\
  fs (snd (run main w)) = fs w /\
  length (stdout (snd (run main w))) = S (length (stdout w)).
Proof.
  intros Hs. unfold run. rewrite (main_missing_source w Hs).
  cbn [snd fs stdout printed]. rewrite length_app. simpl.
  split; [reflexivity|]. split; [reflexivity|lia].
Qed.

Lemma missing_source_exits_1_witness :
  run (main (H := Sample.nearest)) Sample.world_empty =
    (1, printed Sample.world_empty "Error: Source image 'app_icon_source.png' not found").
Proof.
  apply (missing_source_exits_1 (H := Sample.nearest) Sample.world_empty).
  reflexivity.
Defined.

(** ** Fail-fast *)

Lemma for_sizes_app_ok `{Platform} (pre rest : list (Z * option string)) (img : Image)
    (out : string) (sf : float) (w w1 : World) :
  for_sizes pre img out sf w = (Ok true, w1) ->
  for_sizes (pre ++ rest) img out sf w = for_sizes rest img out sf w1.
Proof.
  revert w. induction pre as [|[size [fn|]] pre IH]; intros w Hf.
  - by injection Hf as <-.
  - destruct (generate_size img out sf size fn w) as [[[]|e] w0] eqn:Hg.
    + cbn [app]. erewrite for_sizes_cons_ok in * by done. by apply IH.
    + pose proof Hg as Hg'. apply generate_size_raise in Hg' as [-> _].
      erewrite for_sizes_cons_raise in Hf by done. discriminate.
  - cbn [app for_sizes] in *. by apply IH.
Qed.

Lemma generate_icons_opened `{Platform} (src out : string) (sf : float)
    (w w0 : World) (img0 img : Image) :
  open_source src sf w = (Ok img0, w0) ->
  rgba_of img0 = Ok img ->
  generate_icons src out sf w = for_sizes UNIQUE_SIZES img out sf w0.
Proof.
  intros Ho Hc. unfold generate_icons, bind at 1, try_except. rewrite Ho.
  unfold bind at 1. unfold rgba_of in Hc.
  destruct (negb (mode_eqb (mode img0) RGBA)).
  - unfold lift. by rewrite Hc.
  - unfold ret. by injection Hc as ->.
Qed.

(** C4: when the pass for an entry raises (in resize, crop, paste or save),
    the loop prints the error and returns [False] at once: the outcome is the
    same whatever entries follow, and the file system is the one the earlier
    entries left.  [generate_icons] then returns [False] and the process
    exits with status 1. *)
Theorem fail_fast `{Platform} (pre post : list (Z * option string)) (size : Z)
    (fn : string) (img : Image) (out : string) (sf : float) (w w1 w2 : World) (e : Exn) :
  for_sizes pre img out sf w = (Ok true, w1) ->
  generate_size img out sf size fn w1 = (Raise e, w2) ->
  let stopped :=
    printed w2 ("✗ Error generating " +:+ str_int size +:+ "x" +:+ str_int size
                  +:+ ": " +:+ str_exn e) in
  for_sizes (pre ++ (size, Some fn) :: post) img out sf w = (Ok false, stopped) /\
  fs stopped = fs w1 /\
  (forall src ws img0,
     UNIQUE_SIZES = (pre ++ (size, Some fn) :: post)%list ->
     open_source src sf ws = (Ok img0, w) ->
     rgba_of img0 = Ok img ->
     generate_icons src out sf ws = (Ok false, stopped)) /\
  (forall wm img0,
     UNIQUE_SIZES = (pre ++ (size, Some fn) :: post)%list ->
     out = output -> sf = float_1_2 ->
     is_Some (fs wm !! source) -> is_Some (fs wm !! output) ->
     open_source source float_1_2
       (printed wm "Generating app icons from app_icon_source.png...") = (Ok img0, w) ->
     rgba_of img0 = Ok img ->
     run main wm =
       (1, printed stopped (newline +:+ "✗ Failed to generate some icons"))).
Proof.
  intros Hpre Hg stopped.
  pose proof Hg as Hg'. apply generate_size_raise in Hg' as [-> _].
  assert (Hloop : for_sizes (pre ++ (size, Some fn) :: post) img out sf w
                  = (Ok false, stopped)).
  { rewrite (for_sizes_app_ok _ _ _ _ _ _ _ Hpre).
    by rewrite (for_sizes_cons_raise _ _ _ _ _ _ _ _ Hg). }
  assert (Hgen : forall src ws img0,
            UNIQUE_SIZES = (pre ++ (size, Some fn) :: post)%list ->
            open_source src sf ws = (Ok img0, w) ->
            rgba_of img0 = Ok img ->
            generate_icons src out sf ws = (Ok false, stopped)).
  { intros src ws img0 Htab Ho Hc.
    rewrite (generate_icons_opened _ _ _ _ _ _ _ Ho Hc), Htab. exact Hloop. }
  split; [exact Hloop|]. split; [reflexivity|]. split; [exact Hgen|].
  intros wm img0 Htab -> -> Hsrc Hout Ho Hc.
  unfold run. rewrite (main_runs wm Hsrc Hout).
  by rewrite (Hgen _ _ _ Htab Ho Hc).
Qed.

Lemma fail_fast_witness :
  fst (run (main (H := Sample.nearest)) Sample.world_protected) = 1 /\
  fs (snd (run (main (H := Sample.nearest)) Sample.world_protected))
    !! os_path.join output "writing shed iPad.png" = None.
Proof.
  set (img := mkImage RGBA 2 2 (Some (fun _ _ => mkPixel 200 100 50 255))).
  set (w := snd (open_source (H := Sample.nearest) source float_1_2
                   (printed Sample.world_protected
                      "Generating app icons from app_icon_source.png..."))).
  set (w1 := snd (for_sizes (H := Sample.nearest) (take 4 UNIQUE_SIZES) img output float_1_2 w)).
  set (w2 := snd (generate_size (H := Sample.nearest) img output float_1_2 60
                    "writing shed spotlight 3.png" w1)).
  destruct (fail_fast (H := Sample.nearest) (take 4 UNIQUE_SIZES) (drop 5 UNIQUE_SIZES) 60
              "writing shed spotlight 3.png" img output float_1_2 w w1 w2
              (Error PermissionError "[Errno 13] Permission denied"))
    as (_ & Hfs & _ & Hmain).
  - by_outcome.
  - by_outcome.
  - rewrite (Hmain Sample.world_protected Sample.opaque_rgb).
    + split; [reflexivity|]. cbn [snd]. change (fs (printed ?a ?b)) with (fs a).
      rewrite Hfs. vm_compute. reflexivity.
    + reflexivity.
    + reflexivity.
    + reflexivity.
    + apply (bool_decide_unpack _). vm_compute. exact I.
    + apply (bool_decide_unpack _). vm_compute. exact I.
    + by_outcome.
    + reflexivity.
Defined.

(** ** Exceptions that leave [generate_icons] *)


(** C5 (the code lets an exception through): the source file is an RGB image
    whose header is intact and whose pixel data is cut short.  [Image.open]
    and the two header lines succeed, the conversion to RGBA decodes the
    pixels and raises [OSError] outside of any [try]: [generate_icons] raises
    instead of returning, and the process ends with a traceback and status
    1. *)
Example generate_icons_raises_on_truncated_source :
  generate_icons (H := Sample.nearest) source output float_1_2
      (Sample.world_with Sample.truncated_rgb) =
    (Raise (Error OSError "image file is truncated"),
     printed (printed (Sample.world_with Sample.truncated_rgb)
                "Source image: 512x512 pixels")
       "Scale factor: 1.2x (content will be 19% bigger)") /\
  fst (run (main (H := Sample.nearest)) (Sample.world_with Sample.truncated_rgb)) = 1 /\
  stderr (snd (run (main (H := Sample.nearest)) (Sample.world_with Sample.truncated_rgb))) =
    ["Traceback (most recent call last):"; "image file is truncated"].
Proof. repeat split; vm_compute; reflexivity. Qed.

(** ** The files of a successful run *)

(** C9: the file names of the table are pairwise distinct, there are 12 of
    them, and every key is positive.  Hence a run that returns [True] has
    written to 12 pairwise distinct paths; each of them holds the PNG of its
    own entry, of that entry's size (no later entry has replaced it), and
    every other path of the file system is as it was. *)
Theorem twelve_distinct_files `{Platform} :
  NoDup (filenames UNIQUE_SIZES) /\
  length (filenames UNIQUE_SIZES) = 12%nat /\
  Forall (fun e : Z * option string => 0 < fst e) UNIQUE_SIZES /\
  forall (src out : string) (sf : float) (w w' : World),
    generate_icons src out sf w = (Ok true, w') ->
    NoDup (output_paths out UNIQUE_SIZES) /\
    length (output_paths out UNIQUE_SIZES) = 12%nat /\
    (forall size fn, (size, Some fn) ∈ UNIQUE_SIZES ->
       exists im, fs w' !! os_path.join out fn = Some (ImageFile PNG im) /\
         width im = size /\ height im = size) /\
    (forall p, p ∉ output_paths out UNIQUE_SIZES -> fs w' !! p = fs w !! p).
Proof.
  split; [apply (bool_decide_unpack _); vm_compute; exact I|].
  split; [reflexivity|].
  split; [unfold UNIQUE_SIZES; repeat constructor|].
  intros src out sf w w' Hg.
  apply generate_icons_true_files in Hg as (fmt & img0 & img & _ & _ & Hfiles & Hframe).
  split; [apply UNIQUE_SIZES_paths_NoDup|]. split; [reflexivity|].
  split; [|exact Hframe].
  intros size fn Hin. destruct (Hfiles size fn Hin) as (im & Hr & Hf).
  apply render_icon_shape in Hr as (_ & Hw & Hh & _). eauto.
Qed.

Lemma twelve_distinct_files_witness :
  NoDup (output_paths output UNIQUE_SIZES) /\
  fs (snd (generate_icons (H := Sample.nearest) source output float_1_2
             (Sample.world_with Sample.opaque_rgb))) !! source =
    Some (ImageFile PNG Sample.opaque_rgb).
Proof.
  destruct (twelve_distinct_files (H := Sample.nearest)) as (_ & _ & _ & Hrun).
  destruct (Hrun source output float_1_2 (Sample.world_with Sample.opaque_rgb)
              (snd (generate_icons (H := Sample.nearest) source output float_1_2
                      (Sample.world_with Sample.opaque_rgb))))
    as (Hnd & _ & _ & Hframe).
  - by_outcome.
  - split; [exact Hnd|]. rewrite Hframe; [reflexivity|].
    apply (bool_decide_unpack _). vm_compute. exact I.
Defined.

(** ** Pasting through the alpha band *)

Lemma div255_mul_255 (c : Z) : band_ok c -> div255 (c * 255) = c.
Proof.
  unfold band_ok, div255. intros Hc. rewrite !Z.shiftr_div_pow2 by lia.
  change (2 ^ 8) with 256.
  pose proof (Z.div_mod (c * 255 + 128) 256 ltac:(lia)) as Hdm.
  pose proof (Z.mod_pos_bound (c * 255 + 128) 256 ltac:(lia)) as Hmod.
  symmetry. apply (Z.div_unique _ _ _ (128 - c + (c * 255 + 128) / 256)); lia.
Qed.

(** Where the mask is 255 the pasted pixel is copied as it is. *)
Lemma blend_pixel_opaque (dst p : Pixel) :
  pixel_ok p -> blend_pixel 255 dst p = p.
Proof.
  intros (Hr & Hg & Hb & Ha). destruct p as [r g b a]. simpl in *.
  unfold blend_pixel, blend8. simpl red; simpl green; simpl blue; simpl alpha.
  replace (255 - 255) with 0 by lia. rewrite !Z.mul_0_r, !Z.add_0_l.
  by rewrite !div255_mul_255.
Qed.

(** The content pasted whole: the pixels of the canvas that comes out. *)
Lemma centred_ok `{Platform} (img : Image) (size cs : Z) (px : Raster) :
  pixels img = Some px -> 1 <= cs -> 0 <= size ->
  centred img size cs =
    Ok (mkImage RGBA size size
          (Some (fun x y =>
             let off := (size - cs) / 2 in
             let p := lanczos px (im_size img) (cs, cs) (x - off) (y - off) in
             if (off <=? x) && (x <? off + cs) && (off <=? y) && (y <? off + cs)
             then blend_pixel (alpha p) transparent p
             else transparent))).
Proof.
  intros Hpx Hcs Hsize. unfold centred, resize, load. rewrite Hpx. cbn [rbind].
  destruct (Z.ltb_spec cs 1); [lia|]. cbn [orb rbind].
  rewrite new_ok by lia. cbn [rbind].
  erewrite paste_self_ok by reflexivity. reflexivity.
Qed.

Lemma rgba_of_pixels (img0 img : Image) (px : Raster) :
  rgba_of img0 = Ok img ->
  pixels img = Some px ->
  pixels img0 = Some px /\ im_size img = im_size img0.
Proof.
  unfold rgba_of, convert, load, rbind.
  destruct (negb _); [|by intros [= <-]].
  destruct (pixels img0) as [px0|]; [|discriminate].
  intros [= <-]. cbn. by intros [= ->].
Qed.

(** C8, as stated, fails on a source that is not opaque: at scale factor 1.0
    the half transparent source (alpha 128) is resized to pixels
    (200, 100, 50, 128), and the file saved for the entry of size 29 holds
    (100, 50, 25, 64) instead: the paste mixes every band, alpha included,
    with the transparent canvas. *)
Lemma unit_scale_changes_translucent_pixels :
  fst (generate_icons (H := Sample.nearest) source output float_1_0
         (Sample.world_with Sample.glass_rgba)) = Ok true /\
  saved_pixel
    (snd (generate_icons (H := Sample.nearest) source output float_1_0
            (Sample.world_with Sample.glass_rgba)))
    (os_path.join output "writing shed iPhone Settings.png") 0 0 =
    Some (mkPixel 100 50 25 64) /\
  (rs <- resize (H := Sample.nearest) Sample.glass_rgba (29, 29) ;;; Ok (getpixel rs 0 0)) =
    Ok (mkPixel 200 100 50 128).
Proof. repeat split; vm_compute; reflexivity. Qed.

(** C8, amended: at scale factor 1.0, after a run that returned [True], the
    file of every entry with a file name is [size] by [size] and each of its
    pixels is the pixel of the source resized to [size] by [size], laid over
    transparency through its own alpha.  There is no border, and the pixel
    is identical to the resized one wherever that one is opaque. *)
Theorem unit_scale_output `{Platform} (src out : string) (w w' : World)
    (size : Z) (fn : string) :
  generate_icons src out float_1_0 w = (Ok true, w') ->
  (size, Some fn) ∈ UNIQUE_SIZES ->
  exists fmt img0 px0 im,
    fs w !! src = Some (ImageFile fmt img0) /\
    pixels img0 = Some px0 /\
    fs w' !! os_path.join out fn = Some (ImageFile PNG im) /\
    width im = size /\ height im = size /\
    forall x y, 0 <= x < size -> 0 <= y < size ->
      let p := lanczos px0 (im_size img0) (size, size) x y in
      getpixel im x y = blend_pixel (alpha p) transparent p /\
      (pixel_ok p -> alpha p = 255 -> getpixel im x y = p).
Proof.
  intros Hg Hin.
  apply generate_icons_true_files in Hg as (fmt & img0 & img & Hs & Hc & Hfiles & _).
  destruct (Hfiles size fn Hin) as (im & Hr & Hf).
  assert (Hcs : content_size size float_1_0 = Ok size).
  { pose proof content_sizes_at_one as Hall. rewrite Forall_forall in Hall.
    apply (Hall _ Hin). }
  assert (Hpos : 1 <= size).
  { assert (Hall : Forall (fun e : Z * option string => 1 <= fst e) UNIQUE_SIZES)
      by (unfold UNIQUE_SIZES; repeat constructor; simpl; lia).
    rewrite Forall_forall in Hall. apply (Hall _ Hin). }
  rewrite (render_icon_cases _ _ _ _ Hcs) in Hr.
  destruct (Z.gtb_spec size size); [lia|].
  assert (Hpx : exists px0, pixels img0 = Some px0 /\ pixels img = Some px0 /\
                  im_size img = im_size img0).
  { destruct (pixels img) as [px|] eqn:Hp.
    - exists px. destruct (rgba_of_pixels _ _ _ Hc Hp). done.
    - unfold centred, resize, load in Hr. rewrite Hp in Hr. discriminate. }
  destruct Hpx as (px0 & Hp0 & Hp & Hsz).
  rewrite (centred_ok img size size px0 Hp) in Hr by lia.
  injection Hr as <-.
  exists fmt, img0, px0. eexists. split; [done|]. split; [done|].
  split; [exact Hf|]. split; [reflexivity|]. split; [reflexivity|].
  intros x y Hx Hy p. cbn [getpixel pixels].
  replace ((size - size) / 2) with 0 by (rewrite Z.sub_diag; reflexivity).
  rewrite !Z.sub_0_r, Hsz. fold p.
  destruct (Z.leb_spec 0 x); [|lia]. destruct (Z.ltb_spec x (0 + size)); [|lia].
  destruct (Z.leb_spec 0 y); [|lia]. destruct (Z.ltb_spec y (0 + size)); [|lia].
  cbn [andb]. split; [reflexivity|].
  intros Hok Ha. rewrite Ha. by apply blend_pixel_opaque.
Qed.

Lemma unit_scale_output_witness :
  exists im,
    fs (snd (generate_icons (H := Sample.nearest) source output float_1_0
               (Sample.world_with Sample.opaque_rgb)))
      !! os_path.join output "writing shed 1024.png" = Some (ImageFile PNG im) /\
    width im = 1024 /\ height im = 1024 /\
    getpixel im 1023 1023 = mkPixel 200 100 50 255.
Proof.
  destruct (unit_scale_output (H := Sample.nearest) source output
              (Sample.world_with Sample.opaque_rgb)
              (snd (generate_icons (H := Sample.nearest) source output float_1_0
                      (Sample.world_with Sample.opaque_rgb)))
              1024 "writing shed 1024.png")
    as (fmt & img0 & px0 & im & Hs & Hp & Hf & Hw & Hh & Hpix).
  - by_outcome.
  - unfold UNIQUE_SIZES. repeat constructor.
  - exists im. split; [exact Hf|]. split; [exact Hw|]. split; [exact Hh|].
    assert (Himg : img0 = Sample.opaque_rgb).
    { assert (Hs' : fs (Sample.world_with Sample.opaque_rgb) !! source =
                      Some (ImageFile PNG Sample.opaque_rgb)) by reflexivity.
      rewrite Hs' in Hs. by injection Hs as _ <-. }
    subst img0. injection Hp as <-.
    destruct (Hpix 1023 1023 ltac:(lia) ltac:(lia)) as [_ Hsame].
    apply Hsame; [|reflexivity].
    repeat split; simpl; lia.
Defined.

(** ** Further properties of the loop *)

Section MoreLoopFacts.
Context `{Platform}.

Lemma Image_save_writable (im : Image) (path : string) (fmt : Format) (w : World) :
  is_Some (pixels im) -> writable w path ->
  Image_save im path fmt w =
    (Ok tt, mkWorld (<[path := ImageFile fmt im]> (fs w)) (write_error w) (stdout w) (stderr w)).
Proof.
  intros [px Hpx] [Hdir Hwr]. unfold Image_save, load. rewrite Hpx, Hwr.
  destruct (fs w !! path) as [[]|]; done.
Qed.

Lemma Image_save_ok_writable (im : Image) (path : string) (fmt : Format) (w w' : World) :
  Image_save im path fmt w = (Ok tt, w') -> writable w path.
Proof.
  unfold Image_save, writable. destruct (load im); [|discriminate].
  destruct (fs w !! path) as [[]|]; try discriminate;
    destruct (write_error w path) as [[]|]; try discriminate; done.
Qed.

Lemma generate_size_succeeds (img : Image) (out : string) (sf : float) (size : Z)
    (fn : string) (w : World) (im : Image) :
  render_icon img size sf = Ok im ->
  writable w (os_path.join out fn) ->
  generate_size img out sf size fn w =
    (Ok tt, mkWorld (<[os_path.join out fn := ImageFile PNG im]> (fs w)) (write_error w)
              (stdout w ++ [progress_line size fn]) (stderr w)).
Proof.
  intros Hr Hw. unfold generate_size, bind, lift. rewrite Hr.
  apply render_icon_shape in Hr as (_ & _ & _ & px & Hpx).
  rewrite Image_save_writable by (rewrite ?Hpx; eauto). reflexivity.
Qed.

Lemma generate_size_ok_writable (img : Image) (out : string) (sf : float) (size : Z)
    (fn : string) (w w' : World) :
  generate_size img out sf size fn w = (Ok tt, w') -> writable w (os_path.join out fn).
Proof.
  unfold generate_size, bind, lift. intros Hg.
  destruct (render_icon img size sf) as [im|]; [|discriminate].
  destruct (Image_save im _ PNG w) as [[[]|e] w1] eqn:Hs; [|discriminate].
  by apply Image_save_ok_writable in Hs.
Qed.


(** The console after a loop that returned [True]: one progress line per
    entry with a file name, in the order of the table. *)
Lemma for_sizes_true_stdout (items : list (Z * option string)) (img : Image)
    (out : string) (sf : float) (w w' : World) :
  for_sizes items img out sf w = (Ok true, w') ->
  stdout w' = (stdout w ++ map (fun e => progress_line (fst e) (snd e)) (named items))%list.
Proof.
  revert w. induction items as [|[size [fn|]] rest IH]; intros w Hf.
  - injection Hf as <-. cbn. by rewrite app_nil_r.
  - destruct (generate_size img out sf size fn w) as [[[]|e] w1] eqn:Hg.
    + erewrite for_sizes_cons_ok in Hf by done.
      apply generate_size_ok in Hg as (im & _ & ->).
      rewrite (IH _ Hf). cbn. by rewrite <- app_assoc.
    + pose proof Hg as Hg'. apply generate_size_raise in Hg' as [-> _].
      erewrite for_sizes_cons_raise in Hf by done. discriminate.
  - by apply IH.
Qed.

(** When no two entries share a path, the loop returns [True] as soon as
    every entry with a file name renders and has a writable path. *)
Lemma for_sizes_true_intro (items : list (Z * option string)) (img : Image)
    (out : string) (sf : float) (w : World) :
  NoDup (output_paths out items) ->
  (forall size fn, (size, Some fn) ∈ items ->
     (exists im, render_icon img size sf = Ok im) /\ writable w (os_path.join out fn)) ->
  exists w', for_sizes items img out sf w = (Ok true, w').
Proof.
  revert w. induction items as [|[size [fn|]] rest IH]; intros w Hnd Hall.
  - eexists. reflexivity.
  - unfold output_paths, filenames in Hnd. cbn in Hnd.
    apply NoDup_cons in Hnd as [Hfresh Hnd].
    destruct (Hall size fn ltac:(left)) as ([im Hr] & Hw).
    pose proof (generate_size_succeeds img out sf size fn w im Hr Hw) as Hg.
    erewrite for_sizes_cons_ok by exact Hg.
    apply IH; [exact Hnd|].
    intros size' fn' Hin. destruct (Hall size' fn' ltac:(by right)) as [Hr' [Hdir Hwr]].
    split; [exact Hr'|]. split; [|exact Hwr]. cbn [fs].
    rewrite lookup_insert_ne; [exact Hdir|].
    intros Heq. apply Hfresh. rewrite Heq.
    apply list_elem_of_fmap. exists fn'. split; [done|].
    unfold filenames. apply list_elem_of_omap. by exists (size', Some fn').
  - cbn [for_sizes]. apply IH; [exact Hnd|].
    intros size' fn' Hin. apply Hall. by right.
Qed.

(** Conversely every entry of a loop that returned [True] rendered, and its
    path was writable when the loop started. *)
Lemma for_sizes_true_elim (items : list (Z * option string)) (img : Image)
    (out : string) (sf : float) (w w' : World) :
  NoDup (output_paths out items) ->
  for_sizes items img out sf w = (Ok true, w') ->
  forall size fn, (size, Some fn) ∈ items ->
    (exists im, render_icon img size sf = Ok im) /\ writable w (os_path.join out fn).
Proof.
  revert w. induction items as [|[size0 [fn0|]] rest IH]; intros w Hnd Hf size fn Hin.
  - by apply elem_of_nil in Hin.
  - unfold output_paths, filenames in Hnd. cbn in Hnd.
    apply NoDup_cons in Hnd as [Hfresh Hnd].
    destruct (generate_size img out sf size0 fn0 w) as [[[]|e] w1] eqn:Hg.
    + erewrite for_sizes_cons_ok in Hf by done.
      pose proof (generate_size_ok_writable _ _ _ _ _ _ _ Hg) as Hw0.
      apply generate_size_ok in Hg as (im & Hr & ->).
      apply elem_of_cons in Hin as [[= -> ->]|Hin]; [eauto|].
      destruct (IH _ Hnd Hf size fn Hin) as [Hr' [Hdir Hwr]].
      split; [exact Hr'|]. split; [|exact Hwr]. cbn [fs] in Hdir.
      rewrite lookup_insert_ne in Hdir; [exact Hdir|].
      intros Heq. apply Hfresh. rewrite Heq.
      apply list_elem_of_fmap. exists fn. split; [done|].
      unfold filenames. apply list_elem_of_omap. by exists (size, Some fn).
    + pose proof Hg as Hg'. apply generate_size_raise in Hg' as [-> _].
      erewrite for_sizes_cons_raise in Hf by done. discriminate.
  - apply elem_of_cons in Hin as [[=]|Hin]. by apply (IH _ Hnd Hf).
Qed.

End MoreLoopFacts.

(** ** Further properties of [generate_icons] *)

Section MoreRunFacts.
Context `{Platform}.

(** The first [try] on a source that is an image file. *)
Lemma open_source_image (src : string) (sf : float) (w : World) (fmt : Format)
    (img0 : Image) :
  fs w !! src = Some (ImageFile fmt img0) ->
  open_source src sf w =
    match percent_bigger sf with
    | Ok pc => (Ok img0, printed (printed w (source_line img0)) (scale_line sf pc))
    | Raise e => (Raise e, printed w (source_line img0))
    end.
Proof.
  intros Hs. unfold open_source, bind, Image_open, print, lift, ret. rewrite Hs.
  by destruct (percent_bigger sf).
Qed.

(** The first [try] on a source that is not an image file. *)
Lemma open_source_not_image (src : string) (sf : float) (w : World) :
  (forall fmt im, fs w !! src <> Some (ImageFile fmt im)) ->
  exists k msg, open_source src sf w = (Raise (Error k msg), w).
Proof.
  intros Hno. unfold open_source, bind, Image_open.
  destruct (fs w !! src) as [[| |fmt im]|] eqn:Hs; eauto.
  by destruct (Hno fmt im).
Qed.

(** [generate_icons] once the first [try] and the conversion went through. *)
Lemma generate_icons_loop (src out : string) (sf : float) (w : World) (fmt : Format)
    (img0 img : Image) (pc : Z) :
  fs w !! src = Some (ImageFile fmt img0) ->
  percent_bigger sf = Ok pc ->
  rgba_of img0 = Ok img ->
  generate_icons src out sf w =
    for_sizes UNIQUE_SIZES img out sf
      (printed (printed w (source_line img0)) (scale_line sf pc)).
Proof.
  intros Hs Hp Hc. apply generate_icons_opened with (img0 := img0); [|exact Hc].
  rewrite (open_source_image _ _ _ _ _ Hs), Hp. reflexivity.
Qed.

(** A run that returned a value got past the first [try] or printed the
    opening error. *)
Lemma generate_icons_returned (src out : string) (sf : float) (w w' : World) (b : bool) :
  generate_icons src out sf w = (Ok b, w') ->
  (b = false /\ exists w1 e, (w1 = w \/ exists img0, w1 = printed w (source_line img0)) /\
     w' = printed w1 ("Error opening source image: " +:+ str_exn e)) \/
  (exists fmt img0 img pc,
     fs w !! src = Some (ImageFile fmt img0) /\
     percent_bigger sf = Ok pc /\
     rgba_of img0 = Ok img /\
     for_sizes UNIQUE_SIZES img out sf
       (printed (printed w (source_line img0)) (scale_line sf pc)) = (Ok b, w')).
Proof.
  intros Hg.
  destruct (fs w !! src) as [[| |fmt img0]|] eqn:Hs.
  1,2,4: left; destruct (open_source_not_image src sf w) as (k & msg & Ho);
    [intros fmt im; rewrite Hs; discriminate|];
    unfold generate_icons, bind at 1, try_except in Hg; rewrite Ho in Hg;
    cbn in Hg; injection Hg as <- <-;
    split; [done|]; exists w, (Error k msg); split; [by left|done].
  destruct (percent_bigger sf) as [pc|e] eqn:Hp.
  - destruct (rgba_of img0) as [img|e] eqn:Hc.
    + right. exists fmt, img0, img, pc. repeat split; try done.
      by rewrite <- (generate_icons_loop src out sf w fmt img0 img pc).
    + exfalso. unfold generate_icons, bind at 1, try_except in Hg.
      rewrite (open_source_image _ _ _ _ _ Hs), Hp in Hg.
      unfold bind at 1 in Hg. unfold rgba_of in Hc.
      destruct (negb (mode_eqb (mode img0) RGBA)); [|discriminate].
      unfold lift in Hg. rewrite Hc in Hg. discriminate.
  - left. unfold generate_icons, bind at 1, try_except in Hg.
    rewrite (open_source_image _ _ _ _ _ Hs), Hp in Hg.
    rewrite (percent_bigger_Exception _ _ Hp) in Hg.
    cbn in Hg. injection Hg as <- <-.
    split; [done|]. exists (printed w (source_line img0)), e. split; [right; eauto|done].
Qed.

End MoreRunFacts.

(** ** The exit status *)

Lemma main_missing_output `{Platform} (w : World) :
  is_Some (fs w !! source) ->
  fs w !! output = None ->
  main w =
    (Raise (SystemExit 1),
     printed w "Error: Output directory 'WrtingShedPro/Writing Shed Pro/Assets.xcassets/AppIcon.appiconset' not found").
Proof.
  intros Hs Ho. unfold main, bind at 1, os_path.exists_.
  rewrite bool_decide_eq_true_2 by done. cbn [negb].
  unfold bind at 1, ret at 1, bind at 1.
  rewrite Ho, bool_decide_eq_false_2 by apply is_Some_None.
  reflexivity.
Qed.

(** X1: when the source exists and the output directory does not, the
    process prints one line naming the directory and exits with status 1; the
    file system is left as it was (the directory is not created) and
    [generate_icons], which always prints, has not run. *)
Theorem missing_output_exits_1 `{Platform} (w : World) :
  is_Some (fs w !! source) ->
  fs w !! output = None ->
  run main w =
    (1, printed w "Error: Output directory 'WrtingShedPro/Writing Shed Pro/Assets.xcassets/AppIcon.appiconset' not found") /\
  fs (snd (run main w)) = fs w /\
  length (stdout (snd (run main w))) = S (length (stdout w)).
Proof.
  intros Hs Ho. unfold run. rewrite (main_missing_output w Hs Ho).
  cbn [snd fs stdout printed]. rewrite length_app. simpl.
  split; [reflexivity|]. split; [reflexivity|lia].
Qed.

Lemma missing_output_exits_1_witness :
  fst (run (main (H := Sample.nearest)) Sample.world_no_output) = 1 /\
  fs (snd (run (main (H := Sample.nearest)) Sample.world_no_output)) =
    fs Sample.world_no_output.
Proof.
  destruct (missing_output_exits_1 (H := Sample.nearest) Sample.world_no_output)
    as (Hrun & Hfs & _).
  - apply (bool_decide_unpack _). vm_compute. exact I.
  - apply (bool_decide_unpack _). vm_compute. exact I.
  - rewrite Hrun at 1. split; [reflexivity|exact Hfs].
Defined.




(** ** Errors of the first [try] *)

(** X3: when the source path does not lead to an image file (it is missing,
    a directory, or a file no decoder identifies), [generate_icons] prints
    the one line [Error opening source image: ...] and returns [False]; the
    file system is not touched. *)
Theorem unreadable_source_returns_false `{Platform} (src out : string) (sf : float)
    (w : World) :
  (forall fmt im, fs w !! src <> Some (ImageFile fmt im)) ->
  exists msg,
    generate_icons src out sf w =
      (Ok false, printed w ("Error opening source image: " +:+ msg)).
Proof.
  intros Hno. destruct (open_source_not_image src sf w Hno) as (k & msg & Ho).
  exists msg. unfold generate_icons, bind at 1, try_except. rewrite Ho. reflexivity.
Qed.

Lemma unreadable_source_returns_false_witness :
  exists msg,
    generate_icons (H := Sample.nearest) source output float_1_2 Sample.world_junk =
      (Ok false, printed Sample.world_junk ("Error opening source image: " +:+ msg)).
Proof.
  apply (unreadable_source_returns_false (H := Sample.nearest)).
  intros fmt im.
  assert (Hs : fs Sample.world_junk !! source = Some NotAnImage) by reflexivity.
  rewrite Hs. discriminate.
Defined.

(** X4: a scale factor that is NaN or infinite makes the percentage of the
    second header line fail inside the first [try]: although the image
    opened, [generate_icons] prints the first header line, then
    [Error opening source image: cannot convert float ... to integer], and
    returns [False] without entering the loop or writing a file. *)
Theorem non_finite_scale_returns_false `{Platform} (src out : string) (sf : float)
    (w : World) (fmt : Format) (img0 : Image) :
  fs w !! src = Some (ImageFile fmt img0) ->
  sf = S754_nan \/ (exists s, sf = S754_infinity s) ->
  exists msg,
    generate_icons src out sf w =
      (Ok false,
       printed (printed w (source_line img0)) ("Error opening source image: " +:+ msg)) /\
    (sf = S754_nan -> msg = "cannot convert float NaN to integer") /\
    ((exists s, sf = S754_infinity s) -> msg = "cannot convert float infinity to integer").
Proof.
  intros Hs Hsf.
  assert (Hp : exists k msg, percent_bigger sf = Raise (Error k msg) /\
            (sf = S754_nan -> msg = "cannot convert float NaN to integer") /\
            ((exists s, sf = S754_infinity s) ->
             msg = "cannot convert float infinity to integer")).
  { destruct Hsf as [->|[s ->]].
    - exists ValueError, "cannot convert float NaN to integer".
      split; [vm_compute; reflexivity|]. split; [done|]. by intros [s [=]].
    - exists OverflowError, "cannot convert float infinity to integer".
      split; [destruct s; vm_compute; reflexivity|]. split; [discriminate|done]. }
  destruct Hp as (k & msg & Hp & Hnan & Hinf). exists msg.
  split; [|split; assumption].
  unfold generate_icons, bind at 1, try_except.
  rewrite (open_source_image _ _ _ _ _ Hs), Hp. reflexivity.
Qed.

Lemma non_finite_scale_returns_false_witness :
  fst (generate_icons (H := Sample.nearest) source output S754_nan
         (Sample.world_with Sample.opaque_rgb)) = Ok false.
Proof.
  destruct (non_finite_scale_returns_false (H := Sample.nearest) source output S754_nan
              (Sample.world_with Sample.opaque_rgb) PNG Sample.opaque_rgb eq_refl
              (or_introl eq_refl))
    as (msg & Hrun & _).
  rewrite Hrun. reflexivity.
Defined.

(** ** When [generate_icons] returns *)



(** ** The cropped path *)





(** ** When a run succeeds *)




(** ** What a run leaves behind *)

(** Whatever the loop returns, a path either holds what it held or is an
    output path that now holds a PNG file. *)
Lemma for_sizes_changes `{Platform} (items : list (Z * option string)) (img : Image)
    (out : string) (sf : float) (w w' : World) (r : Result bool) :
  for_sizes items img out sf w = (r, w') ->
  write_error w' = write_error w /\ stderr w' = stderr w /\
  forall p, fs w' !! p = fs w !! p \/
    (p ∈ output_paths out items /\ exists im, fs w' !! p = Some (ImageFile PNG im)).
Proof.
  revert w. induction items as [|[size [fn|]] rest IH]; intros w Hf.
  - injection Hf as <- <-. auto.
  - destruct (generate_size img out sf size fn w) as [[[]|e] w1] eqn:Hg.
    + erewrite for_sizes_cons_ok in Hf by done.
      apply generate_size_ok in Hg as (im & _ & ->).
      apply IH in Hf as (-> & -> & Hch). split; [done|]. split; [done|].
      intros p. unfold output_paths, filenames. cbn [omap fmap list_fmap snd].
      destruct (Hch p) as [Heq|[Hin Him]].
      * cbn [fs] in Heq. destruct (decide (os_path.join out fn = p)) as [<-|Hne].
        -- right. split; [left|]. rewrite Heq, lookup_insert_eq. eauto.
        -- left. by rewrite Heq, lookup_insert_ne.
      * right. split; [by right|done].
    + pose proof Hg as Hg'. apply generate_size_raise in Hg' as [-> _].
      erewrite for_sizes_cons_raise in Hf by done. injection Hf as <- <-. auto.
  - apply IH in Hf as (Hwe & Hse & Hch). split; [done|]. split; [done|]. exact Hch.
Qed.

(** Whatever [generate_icons] returns or raises, a path either holds what it
    held or is an output path that now holds a PNG file. *)
Lemma generate_icons_changes `{Platform} (src out : string) (sf : float)
    (w w' : World) (r : Result bool) :
  generate_icons src out sf w = (r, w') ->
  stderr w' = stderr w /\
  forall p, fs w' !! p = fs w !! p \/
    (p ∈ output_paths out UNIQUE_SIZES /\
     exists im, fs w' !! p = Some (ImageFile PNG im)).
Proof.
  intros Hg. unfold generate_icons, bind at 1, try_except in Hg.
  destruct (open_source src sf w) as [[img0|e] w1] eqn:Ho.
  - apply open_source_ok in Ho as (_ & Hfs & _ & Hse & _).
    unfold bind at 1 in Hg.
    destruct (negb (mode_eqb (mode img0) RGBA)).
    + unfold lift in Hg. destruct (convert img0 RGBA) as [img|e].
      * apply for_sizes_changes in Hg as (_ & -> & Hch). rewrite <- Hfs. auto.
      * injection Hg as <- <-. rewrite Hfs. auto.
    + unfold ret in Hg. apply for_sizes_changes in Hg as (_ & -> & Hch).
      rewrite <- Hfs. auto.
  - apply open_source_raise in Ho as (He & Hfs & _ & Hse & _). rewrite He in Hg.
    unfold bind, print, printed, ret in Hg. injection Hg as <- <-.
    cbn [fs stderr]. rewrite Hfs. auto.
Qed.





(** X10: a run that returns [True] prints exactly fourteen lines: the two
    header lines, then one progress line per entry with a file name, in the
    order of the table. *)
Theorem successful_run_console `{Platform} (src out : string) (sf : float) (w w' : World) :
  generate_icons src out sf w = (Ok true, w') ->
  exists fmt img0 pc,
    fs w !! src = Some (ImageFile fmt img0) /\
    percent_bigger sf = Ok pc /\
    stdout w' =
      (stdout w ++ [source_line img0; scale_line sf pc]
         ++ map (fun e => progress_line (fst e) (snd e)) (named UNIQUE_SIZES))%list /\
    length (stdout w') = (length (stdout w) + 14)%nat.
Proof.
  intros Hg.
  apply generate_icons_returned in Hg
    as [([=] & _)|(fmt & img0 & img & pc & Hs & Hp & Hc & Hf)].
  exists fmt, img0, pc. split; [exact Hs|]. split; [exact Hp|].
  apply for_sizes_true_stdout in Hf. cbn [stdout printed] in Hf.
  assert (Hout : stdout w' =
            (stdout w ++ [source_line img0; scale_line sf pc]
               ++ map (fun e => progress_line (fst e) (snd e)) (named UNIQUE_SIZES))%list).
  { rewrite Hf. by rewrite <- !app_assoc. }
  split; [exact Hout|]. rewrite Hout, !length_app, length_map. reflexivity.
Qed.

Lemma successful_run_console_witness :
  length (stdout (snd (generate_icons (H := Sample.nearest) source output float_1_2
                         (Sample.world_with Sample.opaque_rgb)))) = 14%nat.
Proof.
  destruct (successful_run_console (H := Sample.nearest) source output float_1_2
              (Sample.world_with Sample.opaque_rgb)
              (snd (generate_icons (H := Sample.nearest) source output float_1_2
                      (Sample.world_with Sample.opaque_rgb))))
    as (fmt & img0 & pc & _ & _ & _ & Hlen).
  - by_outcome.
  - exact Hlen.
Defined.

(** Every output path is the path of an entry with a file name. *)
Lemma output_paths_entry (out : string) (items : list (Z * option string)) (p : string) :
  p ∈ output_paths out items ->
  exists size fn, (size, Some fn) ∈ items /\ p = os_path.join out fn.
Proof.
  unfold output_paths, filenames. intros Hp.
  apply list_elem_of_fmap in Hp as (fn & -> & Hfn).
  apply list_elem_of_omap in Hfn as ([size ofn] & Hin & Hsnd).
  cbn in Hsnd. subst ofn. eauto.
Qed.

(** Two runs that return [True] on the same source file write the same
    files. *)
Lemma true_runs_agree `{Platform} (src out : string) (sf : float)
    (w1 w1' w2 w2' : World) :
  fs w1 !! src = fs w2 !! src ->
  generate_icons src out sf w1 = (Ok true, w1') ->
  generate_icons src out sf w2 = (Ok true, w2') ->
  forall p, p ∈ output_paths out UNIQUE_SIZES -> fs w1' !! p = fs w2' !! p.
Proof.
  intros Hsrc Hg1 Hg2 p Hp.
  apply generate_icons_true_files in Hg1 as (fmt1 & img1 & i1 & Hs1 & Hc1 & Hf1 & _).
  apply generate_icons_true_files in Hg2 as (fmt2 & img2 & i2 & Hs2 & Hc2 & Hf2 & _).
  rewrite Hsrc, Hs2 in Hs1. injection Hs1 as _ <-.
  rewrite Hc2 in Hc1. injection Hc1 as <-.
  apply output_paths_entry in Hp as (size & fn & Hin & ->).
  destruct (Hf1 size fn Hin) as (im1 & Hr1 & ->).
  destruct (Hf2 size fn Hin) as (im2 & Hr2 & ->).
  rewrite Hr2 in Hr1. by injection Hr1 as <-.
Qed.

(** X11: what a successful run writes depends on the source image, the
    output directory and the scale factor only, not on what the output paths
    held before: two runs that return [True] from worlds with the same source
    file leave the same file at every output path. *)
Theorem outputs_depend_on_source_only `{Platform} (src out : string) (sf : float)
    (w1 w1' w2 w2' : World) :
  fs w1 !! src = fs w2 !! src ->
  generate_icons src out sf w1 = (Ok true, w1') ->
  generate_icons src out sf w2 = (Ok true, w2') ->
  forall p, p ∈ output_paths out UNIQUE_SIZES -> fs w1' !! p = fs w2' !! p.
Proof. apply true_runs_agree. Qed.

Lemma outputs_depend_on_source_only_witness :
  fs (snd (generate_icons (H := Sample.nearest) source output float_1_2
             (Sample.world_with Sample.opaque_rgb)))
    !! os_path.join output "writing shed 1024.png" =
  fs (snd (generate_icons (H := Sample.nearest) source output float_1_2
             Sample.world_stale))
    !! os_path.join output "writing shed 1024.png".
Proof.
  apply (outputs_depend_on_source_only (H := Sample.nearest) source output float_1_2
           (Sample.world_with Sample.opaque_rgb) _ Sample.world_stale _).
  - reflexivity.
  - by_outcome.
  - by_outcome.
  - apply (bool_decide_unpack _). vm_compute. exact I.
Defined.

(** The conditions under which a run returns [True], on the image the loop
    works with. *)
Lemma generate_icons_true_elim `{Platform} (src out : string) (sf : float) (w w' : World) :
  generate_icons src out sf w = (Ok true, w') ->
  exists fmt img0 img pc,
    fs w !! src = Some (ImageFile fmt img0) /\
    percent_bigger sf = Ok pc /\
    rgba_of img0 = Ok img /\
    write_error w' = write_error w /\
    forall size fn, (size, Some fn) ∈ UNIQUE_SIZES ->
      (exists im, render_icon img size sf = Ok im) /\ writable w (os_path.join out fn).
Proof.
  intros Hg.
  apply generate_icons_returned in Hg
    as [([=] & _)|(fmt & img0 & img & pc & Hs & Hp & Hc & Hf)].
  exists fmt, img0, img, pc. repeat split; try done.
  - by apply for_sizes_true_frame in Hf as (-> & _).
  - by apply (for_sizes_true_elim _ _ _ _ _ _ (UNIQUE_SIZES_paths_NoDup out) Hf size fn).
  - by apply (for_sizes_true_elim _ _ _ _ _ _ (UNIQUE_SIZES_paths_NoDup out) Hf size fn).
  - by apply (for_sizes_true_elim _ _ _ _ _ _ (UNIQUE_SIZES_paths_NoDup out) Hf size fn).
Qed.

Lemma generate_icons_true_intro `{Platform} (src out : string) (sf : float) (w : World)
    (fmt : Format) (img0 img : Image) (pc : Z) :
  fs w !! src = Some (ImageFile fmt img0) ->
  percent_bigger sf = Ok pc ->
  rgba_of img0 = Ok img ->
  (forall size fn, (size, Some fn) ∈ UNIQUE_SIZES ->
     (exists im, render_icon img size sf = Ok im) /\ writable w (os_path.join out fn)) ->
  exists w', generate_icons src out sf w = (Ok true, w').
Proof.
  intros Hs Hp Hc Hall. rewrite (generate_icons_loop _ _ _ _ _ _ _ _ Hs Hp Hc).
  apply for_sizes_true_intro; [apply UNIQUE_SIZES_paths_NoDup|exact Hall].
Qed.

(** X12: running [generate_icons] again after a run that returned [True]
    returns [True] again and leaves the file system exactly as the first run
    left it, provided the source is not itself one of the output paths. *)
Theorem rerun_is_idempotent `{Platform} (src out : string) (sf : float) (w w' : World) :
  generate_icons src out sf w = (Ok true, w') ->
  src ∉ output_paths out UNIQUE_SIZES ->
  exists w'', generate_icons src out sf w' = (Ok true, w'') /\ fs w'' = fs w'.
Proof.
  intros Hg Hsrc.
  pose proof Hg as Helim.
  apply generate_icons_true_elim in Helim
    as (fmt & img0 & img & pc & Hs & Hp & Hc & Hwe & Hall).
  pose proof Hg as Hfiles.
  apply generate_icons_true_files in Hfiles as (fmt' & img0' & img' & Hs' & Hc' & Hfiles & Hfr).
  rewrite Hs in Hs'. injection Hs' as <- <-. rewrite Hc in Hc'. injection Hc' as <-.
  destruct (generate_icons_true_intro src out sf w' fmt img0 img pc) as [w'' Hg2];
    [by rewrite Hfr|done|done| |].
  { intros size fn Hin. destruct (Hall size fn Hin) as [Hr [_ Hwr]].
    split; [done|]. split; [|by rewrite Hwe].
    destruct (Hfiles size fn Hin) as (im & _ & ->). discriminate. }
  exists w''. split; [exact Hg2|].
  apply map_eq. intros p.
  destruct (decide (p ∈ output_paths out UNIQUE_SIZES)) as [Hp'|Hp'].
  - symmetry. apply (true_runs_agree src out sf w w' w' w''); try done.
    by rewrite Hfr.
  - apply generate_icons_true_files in Hg2 as (_ & _ & _ & _ & _ & _ & Hfr2).
    by apply Hfr2.
Qed.

Lemma rerun_is_idempotent_witness :
  exists w'',
    generate_icons (H := Sample.nearest) source output float_1_2
      (snd (generate_icons (H := Sample.nearest) source output float_1_2
              (Sample.world_with Sample.opaque_rgb))) = (Ok true, w'') /\
    fs w'' = fs (snd (generate_icons (H := Sample.nearest) source output float_1_2
                        (Sample.world_with Sample.opaque_rgb))).
Proof.
  apply (rerun_is_idempotent (H := Sample.nearest) source output float_1_2
           (Sample.world_with Sample.opaque_rgb)).
  - by_outcome.
  - apply (bool_decide_unpack _). vm_compute. exact I.
Defined.

(** ** The reference list *)

(** X13: every entry of the table that is iterated is an entry of the
    reference list [ICON_SIZES] under the key [NxN]; the reference list names
    three more files, and no run of [generate_icons] creates or changes
    them. *)
Theorem unique_sizes_within_icon_sizes `{Platform} :
  (forall size fn, (size, fn) ∈ UNIQUE_SIZES -> (size_key size, fn) ∈ ICON_SIZES) /\
  remove_dups (filter (fun fn => fn ∉ filenames UNIQUE_SIZES) (omap snd ICON_SIZES)) =
    ["writing shed spotlight 2.png"; "writing shed iPhone Settings-3.png";
     "writing shed settings 2-1.png"] /\
  forall (src out : string) (sf : float) (w w' : World) (r : Result bool)
         (key fn : string),
    generate_icons src out sf w = (r, w') ->
    (key, Some fn) ∈ ICON_SIZES ->
    fn ∉ filenames UNIQUE_SIZES ->
    fs w' !! os_path.join out fn = fs w !! os_path.join out fn.
Proof.
  split; [|split].
  - intros size fn Hin.
    assert (Hall : Forall (fun e : Z * option string =>
              (size_key (fst e), snd e) ∈ ICON_SIZES) UNIQUE_SIZES).
    { unfold UNIQUE_SIZES. repeat (constructor; [apply (bool_decide_unpack _); vm_compute; exact I|]).
      constructor. }
    rewrite Forall_forall in Hall. apply (Hall _ Hin).
  - vm_compute. reflexivity.
  - intros src out sf w w' r key fn Hg Hin Hnot.
    apply generate_icons_changes in Hg as [_ Hch].
    destruct (Hch (os_path.join out fn)) as [Heq|[Hp _]]; [exact Heq|].
    exfalso. apply Hnot.
    unfold output_paths in Hp. apply list_elem_of_fmap in Hp as (fn' & Heq & Hfn').
    assert (Hs1 : os_path.startswith_slash fn = false).
    { assert (Hall : Forall (fun e : string * option string =>
                match snd e with
                | Some f => os_path.startswith_slash f = false
                | None => True
                end) ICON_SIZES)
        by (unfold ICON_SIZES; repeat constructor).
      rewrite Forall_forall in Hall. apply (Hall _ Hin). }
    assert (Hs2 : os_path.startswith_slash fn' = false).
    { assert (Hall : Forall (fun f => os_path.startswith_slash f = false)
                (filenames UNIQUE_SIZES))
        by (vm_compute; repeat constructor).
      rewrite Forall_forall in Hall. apply (Hall _ Hfn'). }
    by rewrite (join_inj out fn fn' Hs1 Hs2 Heq).
Qed.

Lemma unique_sizes_within_icon_sizes_witness :
  fs (snd (generate_icons (H := Sample.nearest) source output float_1_2
             (Sample.world_with Sample.opaque_rgb)))
    !! os_path.join output "writing shed spotlight 2.png" = None.
Proof.
  destruct (unique_sizes_within_icon_sizes (H := Sample.nearest)) as (_ & _ & Hnever).
  rewrite (Hnever source output float_1_2 (Sample.world_with Sample.opaque_rgb)
             (snd (generate_icons (H := Sample.nearest) source output float_1_2
                     (Sample.world_with Sample.opaque_rgb)))
             (Ok true) "40x40" "writing shed spotlight 2.png").
  - vm_compute. reflexivity.
  - by_outcome.
  - unfold ICON_SIZES. repeat constructor.
  - apply (bool_decide_unpack _). vm_compute. exact I.
Defined.
